(** * ACSD web components: badge, theme toggle and alert

    A shallow embedding of the three custom elements of
    [acsd-components.js] (the second, current copy of the classes in that
    file: [FrmwrkThemeToggle], [FrmwrkBadge], [FrmwrkAlert] and the
    auto-initialising function at its end), and the properties of their
    attribute handling, theme persistence and dismiss lifecycle.

    Conventions of the embedding:
    - an attribute value or a storage value that JavaScript reads as
      [string | null] is an [option string], [None] being [null];
    - the attributes of a host element and [localStorage] are finite maps
      from names to strings; [documentElement.classList] is a finite set of
      tokens;
    - [dispatchEvent] appends the event to a log, oldest first;
    - [setTimeout] appends the due time of the callback to a list of
      pending timers; time is a logical clock in milliseconds;
    - [setAttribute] and [removeAttribute] take the name in ASCII lower
      case, as the DOM does on an HTML element;
    - the shadow tree of the alert is kept as the elements the component
      queries; the variant is interpolated into markup the browser
      parses, and the tree is marked as not known for the variants whose
      markup the embedding does not account for. *)

From stdpp Require Import gmap strings list fin_maps.

Open Scope string_scope.

(** ** Values shared by the components *)

(** [new CustomEvent(type, { detail, bubbles, composed })]; [detail] is
    the object literal, as its list of properties. *)
Record CustomEvent := {
  ev_type : string;
  ev_detail : list (string * string);
  ev_bubbles : bool;
  ev_composed : bool
}.

(** [value || fallback] for a [string | null]: [null] and the empty string
    are the falsy values. *)
Definition js_or (value : option string) (fallback : string) : string :=
  match value with
  | None => fallback
  | Some s => if decide (s = "") then fallback else s
  end.

(** ASCII lower case. In an HTML document [setAttribute] and
    [removeAttribute] lower-case the name they are given, and the
    attribute-changed reaction receives the name in that form. *)
Definition ascii_lowercase_char (c : Ascii.ascii) : Ascii.ascii :=
  let n := Ascii.nat_of_ascii c in
  if Nat.leb 65 n && Nat.leb n 90 then Ascii.ascii_of_nat (n + 32) else c.

Fixpoint ascii_lowercase (s : string) : string :=
  match s with
  | EmptyString => EmptyString
  | String c rest => String (ascii_lowercase_char c) (ascii_lowercase rest)
  end.

(** ** <frmwrk-badge> *)
Module Badge.

(** [_variant] is the field of the instance; [badge_className] is the
    class attribute of the [span.badge] of the shadow tree. *)
Record FrmwrkBadge := {
  _variant : string;
  badge_className : string
}.

Definition observedAttributes : list string := ["variant"].

(** The template's [<span class="badge ${this._variant}">]. *)
Definition _render (b : FrmwrkBadge) : FrmwrkBadge :=
  {| _variant := _variant b; badge_className := "badge " +:+ _variant b |}.

Definition constructor : FrmwrkBadge :=
  _render {| _variant := "primary"; badge_className := "" |}.

(** [badge.className = `badge ${this._variant}`]; the span is always
    there once the constructor has rendered. *)
Definition _updateVariant (b : FrmwrkBadge) : FrmwrkBadge :=
  {| _variant := _variant b; badge_className := "badge " +:+ _variant b |}.

Definition attributeChangedCallback
    (name : string) (oldValue newValue : option string) (b : FrmwrkBadge)
    : FrmwrkBadge :=
  if bool_decide (name = "variant") && bool_decide (oldValue ≠ newValue) then
    _updateVariant
      {| _variant := js_or newValue "primary";
         badge_className := badge_className b |}
  else b.

(** The variants the component documents and styles. *)
Definition documented : list string := ["primary"; "accent"; "subtle"].

(** The reactions the browser delivers to a badge, one after the other:
    the name of the attribute, the old value and the new one. *)
Definition reactions (l : list (string * option string * option string))
    (b : FrmwrkBadge) : FrmwrkBadge :=
  foldl (λ b0 r, attributeChangedCallback r.1.1 r.1.2 r.2 b0) b l.

End Badge.

(** ** <frmwrk-theme-toggle> *)
Module ThemeToggle.

(** The page-wide state the toggle works on: the class list of
    [document.documentElement], [localStorage], and the events
    dispatched so far. *)
Record Page := {
  html_classList : gset string;
  localStorage : gmap string string;
  dispatched : list CustomEvent
}.

(** The instance: the [click] listeners registered on its button, each
    of them the closure [() => this._toggleTheme()]. *)
Record FrmwrkThemeToggle := {
  button_click_listeners : nat
}.

Definition getItem (key : string) (p : Page) : option string :=
  localStorage p !! key.

Definition setItem (key value : string) (p : Page) : Page :=
  {| html_classList := html_classList p;
     localStorage := <[key := value]> (localStorage p);
     dispatched := dispatched p |}.

Definition classList_contains (token : string) (p : Page) : bool :=
  bool_decide (token ∈ html_classList p).

Definition classList_add (token : string) (p : Page) : Page :=
  {| html_classList := {[token]} ∪ html_classList p;
     localStorage := localStorage p;
     dispatched := dispatched p |}.

Definition classList_remove (token : string) (p : Page) : Page :=
  {| html_classList := html_classList p ∖ {[token]};
     localStorage := localStorage p;
     dispatched := dispatched p |}.

Definition dispatchEvent (e : CustomEvent) (p : Page) : Page :=
  {| html_classList := html_classList p;
     localStorage := localStorage p;
     dispatched := dispatched p ++ [e] |}.

(** The event of [_toggleTheme]. *)
Definition theme_changed (theme : string) : CustomEvent :=
  {| ev_type := "theme-changed"; ev_detail := [("theme", theme)];
     ev_bubbles := true; ev_composed := true |}.

(** "No icon to update anymore": the body is empty. *)
Definition _updateIcon (theme : string) (p : Page) : Page := p.

Definition _toggleTheme (p : Page) : Page :=
  let currentTheme :=
    if classList_contains "theme-dark" p then "dark" else "light" in
  let newTheme :=
    if decide (currentTheme = "dark") then "light" else "dark" in
  let p1 :=
    if decide (newTheme = "dark") then classList_add "theme-dark" p
    else classList_remove "theme-dark" p in
  let p2 := setItem "theme" newTheme p1 in
  let p3 := _updateIcon newTheme p2 in
  dispatchEvent (theme_changed newTheme) p3.

Definition _loadSavedTheme (p : Page) : Page :=
  let savedTheme := getItem "theme" p in
  if decide (savedTheme = Some "dark") then
    _updateIcon "dark" (classList_add "theme-dark" p)
  else
    _updateIcon "light" p.

(** The function that runs when the script loads. *)
Definition auto_initialize (p : Page) : Page :=
  let savedTheme := getItem "theme" p in
  if decide (savedTheme = Some "dark") then classList_add "theme-dark" p
  else p.

(** The constructor renders a button that has no listener yet. *)
Definition constructor : FrmwrkThemeToggle :=
  {| button_click_listeners := 0 |}.

Definition connectedCallback (t : FrmwrkThemeToggle) (p : Page)
    : FrmwrkThemeToggle * Page :=
  ({| button_click_listeners := S (button_click_listeners t) |},
   _loadSavedTheme p).

(** [removeEventListener('click', this._toggleTheme)] names a function
    that was never registered (the listeners are closures), so nothing
    is removed. *)
Definition disconnectedCallback (t : FrmwrkThemeToggle)
    : FrmwrkThemeToggle := t.

(** One activation of the button runs every registered listener. *)
Definition click (t : FrmwrkThemeToggle) (p : Page) : Page :=
  Nat.iter (button_click_listeners t) _toggleTheme p.

(** The script loads, then a toggle of the page's markup is created and
    attached. *)
Definition load_and_attach (p : Page) : FrmwrkThemeToggle * Page :=
  connectedCallback constructor (auto_initialize p).

(** The stored preference mirrors the document flag. *)
Definition mirrors (p : Page) : Prop :=
  (getItem "theme" p = Some "light" ∨ getItem "theme" p = Some "dark") ∧
  (getItem "theme" p = Some "dark" ↔ "theme-dark" ∈ html_classList p).

(** The theme the document flag stands for. *)
Definition theme_of (p : Page) : string :=
  if classList_contains "theme-dark" p then "dark" else "light".

(** The page of a first visit: no class on the root element, nothing
    stored, nothing dispatched. *)
Definition first_visit : Page :=
  {| html_classList := ∅; localStorage := ∅; dispatched := [] |}.

(** A later visit: a new document whose root element has the classes
    [markup] of the page's markup, the storage as the last visit left
    it, and the script loads. *)
Definition reload (markup : gset string) (p : Page) : Page :=
  auto_initialize
    {| html_classList := markup; localStorage := localStorage p;
       dispatched := [] |}.

End ThemeToggle.

(** ** <frmwrk-theme-toggle>: the position of the host *)
Module TogglePosition.

(** The field [_position] and the inline style of the host element, the
    part of the instance that [attributeChangedCallback] and
    [_updatePosition] work on. *)
Record Host := {
  _position : string;
  style : gmap string string
}.

Definition observedAttributes : list string := ["position"].

Definition space_lg : string := "var(--space-lg, 1.5rem)".

(** The object literal [positions], its own properties in the order they
    are written. *)
Definition positions : list (string * list (string * string)) :=
  [("top-left",
    [("top", space_lg); ("left", space_lg);
     ("right", "auto"); ("bottom", "auto")]);
   ("top-right",
    [("top", space_lg); ("right", space_lg);
     ("left", "auto"); ("bottom", "auto")]);
   ("bottom-left",
    [("bottom", space_lg); ("left", space_lg);
     ("top", "auto"); ("right", "auto")]);
   ("bottom-right",
    [("bottom", space_lg); ("right", space_lg);
     ("top", "auto"); ("left", "auto")])].

(** The properties an object literal inherits from [Object.prototype]:
    functions, and the prototype itself for [__proto__]. All are truthy
    and none has an enumerable property of its own. *)
Definition Object_prototype : list string :=
  ["constructor"; "hasOwnProperty"; "isPrototypeOf"; "propertyIsEnumerable";
   "toLocaleString"; "toString"; "valueOf"; "__proto__";
   "__defineGetter__"; "__defineSetter__";
   "__lookupGetter__"; "__lookupSetter__"].

Fixpoint own_property (name : string)
    (obj : list (string * list (string * string)))
    : option (list (string * string)) :=
  match obj with
  | [] => None
  | (key, value) :: rest =>
      if decide (name = key) then Some value else own_property name rest
  end.

(** [Object.keys(positions[name] || positions['top-right'])] with the
    values: the entries of the corner for an own property, nothing for
    an inherited one, the entries of [top-right] for [undefined]. *)
Definition chosen (name : string) : list (string * string) :=
  match own_property name positions with
  | Some entries => entries
  | None =>
      if bool_decide (name ∈ Object_prototype) then []
      else default [] (own_property "top-right" positions)
  end.

(** [Object.keys(pos).forEach(key => this.style[key] = pos[key])]. *)
Definition _updatePosition (h : Host) : Host :=
  {| _position := _position h;
     style := foldl (λ st kv, <[kv.1 := kv.2]> st) (style h)
                (chosen (_position h)) |}.

(** The constructor sets [_position] and [_render] ends with
    [_updatePosition]; [inline] is the style the element has by then. *)
Definition constructor (inline : gmap string string) : Host :=
  _updatePosition {| _position := "top-right"; style := inline |}.

Definition attributeChangedCallback
    (name : string) (oldValue newValue : option string) (h : Host) : Host :=
  if bool_decide (name = "position") && bool_decide (oldValue ≠ newValue) then
    _updatePosition
      {| _position := js_or newValue "top-right"; style := style h |}
  else h.

Definition reactions (l : list (string * option string * option string))
    (h : Host) : Host :=
  foldl (λ h0 r, attributeChangedCallback r.1.1 r.1.2 r.2 h0) h l.

(** The four sides of the style, in a fixed order. *)
Definition sides (h : Host) : list (option string) :=
  [style h !! "top"; style h !! "right"; style h !! "bottom"; style h !! "left"].

Definition corner_sides (name : string) : list (option string) :=
  sides {| _position := name;
           style := list_to_map (default [] (own_property name positions)) |}.

End TogglePosition.

(** ** <frmwrk-theme-toggle>: the copy of the class with an icon *)
Module ThemeToggleIcon.

(** The first copy of [FrmwrkThemeToggle] in the file renders a
    [span.icon] into its button and [_updateIcon] writes its text; the
    page is the one of [ThemeToggle]. *)
Record FrmwrkThemeToggle := {
  icon_textContent : string;
  button_click_listeners : nat
}.

Definition sun : string := "☀️".
Definition moon : string := "🌙".

(** The template has the sun in the icon. *)
Definition constructor : FrmwrkThemeToggle :=
  {| icon_textContent := sun; button_click_listeners := 0 |}.

Definition _updateIcon (theme : string) (t : FrmwrkThemeToggle)
    : FrmwrkThemeToggle :=
  {| icon_textContent := if decide (theme = "dark") then moon else sun;
     button_click_listeners := button_click_listeners t |}.

Definition _toggleTheme (t : FrmwrkThemeToggle) (p : ThemeToggle.Page)
    : FrmwrkThemeToggle * ThemeToggle.Page :=
  let currentTheme :=
    if ThemeToggle.classList_contains "theme-dark" p
    then "dark" else "light" in
  let newTheme :=
    if decide (currentTheme = "dark") then "light" else "dark" in
  let p1 :=
    if decide (newTheme = "dark") then ThemeToggle.classList_add "theme-dark" p
    else ThemeToggle.classList_remove "theme-dark" p in
  let p2 := ThemeToggle.setItem "theme" newTheme p1 in
  let t1 := _updateIcon newTheme t in
  (t1, ThemeToggle.dispatchEvent (ThemeToggle.theme_changed newTheme) p2).

Definition _loadSavedTheme (t : FrmwrkThemeToggle) (p : ThemeToggle.Page)
    : FrmwrkThemeToggle * ThemeToggle.Page :=
  let savedTheme := ThemeToggle.getItem "theme" p in
  if decide (savedTheme = Some "dark") then
    (_updateIcon "dark" t, ThemeToggle.classList_add "theme-dark" p)
  else
    (_updateIcon "light" t, p).

Definition connectedCallback (t : FrmwrkThemeToggle) (p : ThemeToggle.Page)
    : FrmwrkThemeToggle * ThemeToggle.Page :=
  _loadSavedTheme
    {| icon_textContent := icon_textContent t;
       button_click_listeners := S (button_click_listeners t) |} p.

(** One activation of the button runs every registered listener. *)
Definition click (t : FrmwrkThemeToggle) (p : ThemeToggle.Page)
    : FrmwrkThemeToggle * ThemeToggle.Page :=
  Nat.iter (button_click_listeners t) (λ tp, _toggleTheme tp.1 tp.2) (t, p).

End ThemeToggleIcon.

(** ** <frmwrk-alert> *)
Module Alert.

(** The close button of the shadow tree with the listeners registered on
    it. Every [click] listener is the closure [() => this._dismiss()],
    every [keydown] listener the Enter/Space handler of
    [connectedCallback]; closures are never equal to one another, so
    each [addEventListener] adds one. *)
Record Button := {
  click_listeners : nat;
  keydown_listeners : nat
}.

(** The shadow tree, as the element tree its template parses to for a
    variant that is a plain class name: the [div.alert] and the optional
    [button.close-button]. [alert_className] is the string last written
    to the class attribute of the [div]; [alert_dismissing] records that
    [classList.add('dismissing')] ran since that write. [tree_known]
    tells that these fields describe the tree the browser has: it is
    [false] from the moment the markup assigned to [innerHTML], or the
    class written to the [div], is outside what [rendered] and
    [_updateVariant] account for; the other fields then say nothing
    about the real tree. *)
Record ShadowTree := {
  alert_className : string;
  alert_dismissing : bool;
  close_button : option Button;
  tree_known : bool
}.

(** The instance fields, the attributes of the host element, the shadow
    tree, and the part of the window the component uses: the clock, the
    pending timers (due times; the only callback ever scheduled is the
    completion of a dismiss) and the events dispatched on the host. *)
Record FrmwrkAlert := {
  _variant : string;
  _dismissible : bool;
  _open : bool;
  attributes : gmap string string;
  _shadowRoot : ShadowTree;
  now : nat;
  timers : list nat;
  dispatched : list CustomEvent
}.

Definition with_variant (v : string) (a : FrmwrkAlert) : FrmwrkAlert :=
  {| _variant := v; _dismissible := _dismissible a; _open := _open a;
     attributes := attributes a; _shadowRoot := _shadowRoot a;
     now := now a; timers := timers a; dispatched := dispatched a |}.

Definition with_dismissible (d : bool) (a : FrmwrkAlert) : FrmwrkAlert :=
  {| _variant := _variant a; _dismissible := d; _open := _open a;
     attributes := attributes a; _shadowRoot := _shadowRoot a;
     now := now a; timers := timers a; dispatched := dispatched a |}.

Definition with_open (o : bool) (a : FrmwrkAlert) : FrmwrkAlert :=
  {| _variant := _variant a; _dismissible := _dismissible a; _open := o;
     attributes := attributes a; _shadowRoot := _shadowRoot a;
     now := now a; timers := timers a; dispatched := dispatched a |}.

Definition with_attributes (m : gmap string string) (a : FrmwrkAlert)
    : FrmwrkAlert :=
  {| _variant := _variant a; _dismissible := _dismissible a; _open := _open a;
     attributes := m; _shadowRoot := _shadowRoot a;
     now := now a; timers := timers a; dispatched := dispatched a |}.

Definition with_shadowRoot (t : ShadowTree) (a : FrmwrkAlert) : FrmwrkAlert :=
  {| _variant := _variant a; _dismissible := _dismissible a; _open := _open a;
     attributes := attributes a; _shadowRoot := t;
     now := now a; timers := timers a; dispatched := dispatched a |}.

Definition with_now (t : nat) (a : FrmwrkAlert) : FrmwrkAlert :=
  {| _variant := _variant a; _dismissible := _dismissible a; _open := _open a;
     attributes := attributes a; _shadowRoot := _shadowRoot a;
     now := t; timers := timers a; dispatched := dispatched a |}.

Definition with_timers (l : list nat) (a : FrmwrkAlert) : FrmwrkAlert :=
  {| _variant := _variant a; _dismissible := _dismissible a; _open := _open a;
     attributes := attributes a; _shadowRoot := _shadowRoot a;
     now := now a; timers := l; dispatched := dispatched a |}.

Definition dispatchEvent (e : CustomEvent) (a : FrmwrkAlert) : FrmwrkAlert :=
  {| _variant := _variant a; _dismissible := _dismissible a; _open := _open a;
     attributes := attributes a; _shadowRoot := _shadowRoot a;
     now := now a; timers := timers a; dispatched := dispatched a ++ [e] |}.

Definition with_close_button (b : option Button) (a : FrmwrkAlert)
    : FrmwrkAlert :=
  with_shadowRoot
    {| alert_className := alert_className (_shadowRoot a);
       alert_dismissing := alert_dismissing (_shadowRoot a);
       close_button := b;
       tree_known := tree_known (_shadowRoot a) |} a.

Definition add_click (b : Button) : Button :=
  {| click_listeners := S (click_listeners b);
     keydown_listeners := keydown_listeners b |}.

Definition add_keydown (b : Button) : Button :=
  {| click_listeners := click_listeners b;
     keydown_listeners := S (keydown_listeners b) |}.

Definition observedAttributes : list string :=
  ["variant"; "dismissible"; "open"].

(** The variants the component documents and styles. *)
Definition documented : list string :=
  ["info"; "success"; "warning"; "error"].

(** The delay of the completion of a dismiss, in milliseconds. *)
Definition dismiss_delay : nat := 300.

(** The event of the completion of a dismiss. *)
Definition alert_dismissed (variant : string) : CustomEvent :=
  {| ev_type := "alert-dismissed"; ev_detail := [("variant", variant)];
     ev_bubbles := true; ev_composed := true |}.

(** *** The variant in the markup and in the class

    [_render] interpolates the variant into markup that the browser
    parses, inside the double-quoted value of the class attribute. In
    that value a double quote ends the attribute, an ampersand starts a
    character reference, a NUL is replaced and a carriage return is
    normalised; every other character stands for itself. *)
Definition is_markup (c : Ascii.ascii) : bool :=
  let n := Ascii.nat_of_ascii c in
  Nat.eqb n 34 || Nat.eqb n 38 || Nat.eqb n 0 || Nat.eqb n 13.

Fixpoint plain (s : string) : bool :=
  match s with
  | EmptyString => true
  | String c rest => negb (is_markup c) && plain rest
  end.

(** The tokens of a class attribute are separated by ASCII whitespace:
    tab, line feed, form feed, carriage return, space. *)
Definition is_space (c : Ascii.ascii) : bool :=
  let n := Ascii.nat_of_ascii c in
  Nat.eqb n 9 || Nat.eqb n 10 || Nat.eqb n 12 || Nat.eqb n 13 || Nat.eqb n 32.

Fixpoint split_spaces (s current : string) : list string :=
  match s with
  | EmptyString => if decide (current = "") then [] else [current]
  | String c rest =>
      if is_space c then
        if decide (current = "") then split_spaces rest ""
        else current :: split_spaces rest ""
      else split_spaces rest (current +:+ String c "")
  end.

Definition class_tokens (s : string) : list string := split_spaces s "".

(** The component finds its elements with [querySelector('.icon')] and
    [querySelector('.close-button')], which return the first match in
    the tree: the [div.alert] itself when its class has that token. A
    variant for which the template parses as written and the queries
    find the [span] and the [button] has no markup character and neither
    token. *)
Definition template_variant (v : string) : bool :=
  plain v
  && bool_decide ("icon" ∉ class_tokens v)
  && bool_decide ("close-button" ∉ class_tokens v).

(** A double quote, the end of the start tag and the opening of a
    comment: a variant that ends so closes the [div] tag after the class
    and leaves the rest of the template, which has no end of comment,
    inside a comment. *)
Definition comment_opener : string := String (Ascii.ascii_of_nat 34) "><!--".

Fixpoint before_opener (v : string) : option string :=
  if decide (v = comment_opener) then Some ""
  else match v with
       | EmptyString => None
       | String c rest => String c <$> before_opener rest
       end.

(** The tree outside the cases accounted for: not known. *)
Definition unknown_tree (v : string) (d : bool) : ShadowTree :=
  {| alert_className := "alert " +:+ v;
     alert_dismissing := false;
     close_button :=
       if d then Some {| click_listeners := 0; keydown_listeners := 0 |}
       else None;
     tree_known := false |}.

(** The tree the markup of [_render] parses to: for a variant as above,
    the [div] with [class="alert ${_variant}"] and a new close button,
    without listeners, when [_dismissible]; for such a variant followed
    by [comment_opener], the [div] with the class up to the quote and a
    comment as its only child. The text of the [span.icon] never adds an
    element and is not part of the model. *)
Definition rendered (v : string) (d : bool) : ShadowTree :=
  if template_variant v then
    {| alert_className := "alert " +:+ v;
       alert_dismissing := false;
       close_button :=
         if d then Some {| click_listeners := 0; keydown_listeners := 0 |}
         else None;
       tree_known := true |}
  else
    match before_opener v with
    | Some p =>
        if template_variant p then
          {| alert_className := "alert " +:+ p;
             alert_dismissing := false;
             close_button := None;
             tree_known := true |}
        else unknown_tree v d
    | None => unknown_tree v d
    end.

(** Assigning [innerHTML] builds a new tree. *)
Definition _render (a : FrmwrkAlert) : FrmwrkAlert :=
  with_shadowRoot (rendered (_variant a) (_dismissible a)) a.

Definition constructor : FrmwrkAlert :=
  _render
    {| _variant := "info"; _dismissible := false; _open := true;
       attributes := ∅;
       _shadowRoot := {| alert_className := ""; alert_dismissing := false;
                         close_button := None; tree_known := true |};
       now := 0; timers := []; dispatched := [] |}.

(** [alert.className = `alert ${this._variant}`] overwrites the class
    attribute, a [dismissing] token included; the icon found before that
    write gets its text. With a token [icon] or [close-button] in the
    class, later queries find the [div]. *)
Definition _updateVariant (a : FrmwrkAlert) : FrmwrkAlert :=
  with_shadowRoot
    {| alert_className := "alert " +:+ _variant a;
       alert_dismissing := false;
       close_button := close_button (_shadowRoot a);
       tree_known :=
         tree_known (_shadowRoot a)
         && bool_decide ("icon" ∉ class_tokens (_variant a))
         && bool_decide ("close-button" ∉ class_tokens (_variant a)) |} a.

Definition _updateDismissible (a : FrmwrkAlert) : FrmwrkAlert :=
  let a1 := _render a in
  if _dismissible a1 then
    match close_button (_shadowRoot a1) with
    | Some b => with_close_button (Some (add_click b)) a1
    | None => a1
    end
  else a1.

Definition setTimeout (delay : nat) (a : FrmwrkAlert) : FrmwrkAlert :=
  with_timers (timers a ++ [now a + delay]) a.

(** [alert.classList.add('dismissing')], then the timer. *)
Definition _dismiss (a : FrmwrkAlert) : FrmwrkAlert :=
  let a1 :=
    with_shadowRoot
      {| alert_className := alert_className (_shadowRoot a);
         alert_dismissing := true;
         close_button := close_button (_shadowRoot a);
         tree_known := tree_known (_shadowRoot a) |} a in
  setTimeout dismiss_delay a1.

(** [setAttribute] and [removeAttribute] of the host run the
    attribute-changed reaction of an observed attribute before they
    return, and that reaction writes the [open] attribute again: the
    three are mutually recursive. They are first written over the
    reaction they call. *)
Section reactions.

Variable reaction :
  string → option string → option string → FrmwrkAlert → option FrmwrkAlert.

(** An attribute under its lower-case name. The reaction runs also when
    the value written is the one the attribute already has. *)
Definition write_attribute (name value : string) (a : FrmwrkAlert)
    : option FrmwrkAlert :=
  let oldValue := attributes a !! name in
  let a1 := with_attributes (<[name := value]> (attributes a)) a in
  if bool_decide (name ∈ observedAttributes)
  then reaction name oldValue (Some value) a1
  else Some a1.

(** Removing an attribute the element does not have does nothing. *)
Definition drop_attribute (name : string) (a : FrmwrkAlert)
    : option FrmwrkAlert :=
  match attributes a !! name with
  | None => Some a
  | Some oldValue =>
      let a1 := with_attributes (delete name (attributes a)) a in
      if bool_decide (name ∈ observedAttributes)
      then reaction name (Some oldValue) None a1
      else Some a1
  end.

(** [setAttribute(name, value)] and [removeAttribute(name)] on the host,
    for a name the DOM accepts as an attribute name. *)
Definition setAttribute_with (name value : string) (a : FrmwrkAlert)
    : option FrmwrkAlert :=
  write_attribute (ascii_lowercase name) value a.

Definition removeAttribute_with (name : string) (a : FrmwrkAlert)
    : option FrmwrkAlert :=
  drop_attribute (ascii_lowercase name) a.

Definition _updateVisibility_with (a : FrmwrkAlert) : option FrmwrkAlert :=
  if negb (_open a) then setAttribute_with "open" "false" a
  else removeAttribute_with "open" a.

End reactions.

(** [fuel] bounds the nesting of reactions; [None] is "out of fuel". *)
Fixpoint attributeChangedCallback (fuel : nat)
    (name : string) (oldValue newValue : option string) (a : FrmwrkAlert)
    : option FrmwrkAlert :=
  match fuel with
  | 0 => None
  | S fuel' =>
      if decide (oldValue = newValue) then Some a
      else if decide (name = "variant") then
        Some (_updateVariant (with_variant (js_or newValue "info") a))
      else if decide (name = "dismissible") then
        Some (_updateDismissible
                (with_dismissible (bool_decide (newValue ≠ None)) a))
      else if decide (name = "open") then
        _updateVisibility_with (attributeChangedCallback fuel')
          (with_open (bool_decide (newValue ≠ Some "false")
                      && bool_decide (newValue ≠ None)) a)
      else Some a
  end.

Definition setAttribute (fuel : nat) :=
  setAttribute_with (attributeChangedCallback fuel).

Definition removeAttribute (fuel : nat) :=
  removeAttribute_with (attributeChangedCallback fuel).

Definition _updateVisibility (fuel : nat) :=
  _updateVisibility_with (attributeChangedCallback fuel).

(** The callback given to [setTimeout] by [_dismiss]; the variant of the
    payload is read when the callback runs. *)
Definition dismiss_timeout (fuel : nat) (a : FrmwrkAlert)
    : option FrmwrkAlert :=
  a1 ← setAttribute fuel "open" "false" (with_open false a);
  Some (dispatchEvent (alert_dismissed (_variant a1)) a1).

Definition show (fuel : nat) (a : FrmwrkAlert) : option FrmwrkAlert :=
  removeAttribute fuel "open" (with_open true a).

Definition dismiss (a : FrmwrkAlert) : FrmwrkAlert := _dismiss a.

(** Both [if (this._closeButton)] blocks work on the button the tree
    has at that moment. *)
Definition connectedCallback (a : FrmwrkAlert) : FrmwrkAlert :=
  match close_button (_shadowRoot a) with
  | Some b => with_close_button (Some (add_keydown (add_click b))) a
  | None => a
  end.

(** [removeEventListener('click', this._dismiss)] names a function that
    was never registered, so nothing is removed. *)
Definition disconnectedCallback (a : FrmwrkAlert) : FrmwrkAlert := a.

(** A click on the close button runs each of its [click] listeners; an
    alert without the button offers nothing to click. *)
Definition click_close (a : FrmwrkAlert) : FrmwrkAlert :=
  match close_button (_shadowRoot a) with
  | Some b => Nat.iter (click_listeners b) _dismiss a
  | None => a
  end.

Definition keydown_handler (key : string) (a : FrmwrkAlert) : FrmwrkAlert :=
  if bool_decide (key = "Enter") || bool_decide (key = " ")
  then _dismiss a else a.

(** A key pressed on the close button runs each of its [keydown]
    listeners. *)
Definition keydown_close (key : string) (a : FrmwrkAlert) : FrmwrkAlert :=
  match close_button (_shadowRoot a) with
  | Some b => Nat.iter (keydown_listeners b) (keydown_handler key) a
  | None => a
  end.

Fixpoint fire (fuel n : nat) (a : FrmwrkAlert) : option FrmwrkAlert :=
  match n with
  | 0 => Some a
  | S n' => a1 ← dismiss_timeout fuel a; fire fuel n' a1
  end.

(** The clock moves on by [ms]; the timers due by then leave the
    pending list and their callbacks run, oldest first. *)
Definition advance (fuel ms : nat) (a : FrmwrkAlert) : option FrmwrkAlert :=
  let t := now a + ms in
  let due := filter (λ d : nat, (d ≤ t)%nat) (timers a) in
  let later := filter (λ d : nat, ¬ (d ≤ t)%nat) (timers a) in
  fire fuel (length due) (with_timers later (with_now t a)).

(** What the page, the user and the event loop can do to an alert. *)
Inductive action :=
| SetAttribute (name value : string)
| RemoveAttribute (name : string)
| Connect
| Disconnect
| ClickClose
| KeydownClose (key : string)
| Show
| Dismiss
| Advance (ms : nat).

Definition step (fuel : nat) (act : action) (a : FrmwrkAlert)
    : option FrmwrkAlert :=
  match act with
  | SetAttribute name value => setAttribute fuel name value a
  | RemoveAttribute name => removeAttribute fuel name a
  | Connect => Some (connectedCallback a)
  | Disconnect => Some (disconnectedCallback a)
  | ClickClose => Some (click_close a)
  | KeydownClose key => Some (keydown_close key a)
  | Show => show fuel a
  | Dismiss => Some (dismiss a)
  | Advance ms => advance fuel ms a
  end.

Fixpoint run (fuel : nat) (acts : list action) (a : FrmwrkAlert)
    : option FrmwrkAlert :=
  match acts with
  | [] => Some a
  | act :: rest => a1 ← step fuel act a; run fuel rest a1
  end.

(** The closed state, on the internal flag and the host attribute that
    [:host([open="false"])] hides. *)
Definition is_closed (a : FrmwrkAlert) : Prop :=
  _open a = false ∧ attributes a !! "open" = Some "false".

(** The closed form of a state: flag cleared, [open="false"] written. *)
Definition closed_of (a : FrmwrkAlert) : FrmwrkAlert :=
  with_attributes (<["open" := "false"]> (attributes a)) (with_open false a).

(** An alert written [<frmwrk-alert open="true">], before any
    reaction. *)
Definition marked_open : FrmwrkAlert :=
  with_attributes {["open" := "true"]} constructor.

(** The actions of a run write to the variant attribute only values
    for which the template parses as written. *)
Definition plain_action (act : action) : Prop :=
  match act with
  | SetAttribute name value =>
      ascii_lowercase name = "variant" → template_variant value = true
  | _ => True
  end.

(** The tree is the one of the template for the current variant, with a
    close button exactly when the alert is dismissible. *)
Definition control_matches (a : FrmwrkAlert) : Prop :=
  template_variant (_variant a) = true ∧
  tree_known (_shadowRoot a) = true ∧
  alert_className (_shadowRoot a) = "alert " +:+ _variant a ∧
  (close_button (_shadowRoot a) = None ↔ _dismissible a = false).

(** The flag and the host attribute agree: open without the attribute,
    or closed. *)
Definition consistent (a : FrmwrkAlert) : Prop :=
  (_open a = true ∧ attributes a !! "open" = None) ∨ is_closed a.

(** The pending completions are due in the future, the delay away at
    most. *)
Definition pending_in_window (a : FrmwrkAlert) : Prop :=
  Forall (λ d : nat, (now a < d ≤ now a + dismiss_delay)%nat) (timers a).

End Alert.

(** * Properties *)

(** Membership of a string in one of the literal lists of the code. *)
Ltac not_listed :=
  rewrite ?not_elem_of_cons; repeat split;
  solve [discriminate | apply not_elem_of_nil].

Ltac listed := rewrite ?elem_of_cons; auto 10.

(** The names the component observes are in lower case already. *)
Lemma lower_open : ascii_lowercase "open" = "open".
Proof. reflexivity. Qed.

Lemma lower_variant : ascii_lowercase "variant" = "variant".
Proof. reflexivity. Qed.

Lemma lower_dismissible : ascii_lowercase "dismissible" = "dismissible".
Proof. reflexivity. Qed.

Ltac lower_names := rewrite ?lower_open, ?lower_variant, ?lower_dismissible.

(** ** Variants of the badge and of the alert *)
Section variants.






End variants.

(** ** The theme toggle *)
Section theme.

Import ThemeToggle.

Lemma toggle_from_dark (p : Page) :
  "theme-dark" ∈ html_classList p →
  _toggleTheme p
  = dispatchEvent (theme_changed "light")
      (setItem "theme" "light" (classList_remove "theme-dark" p)).
Proof.
  intros Hin. unfold _toggleTheme, classList_contains.
  rewrite bool_decide_eq_true_2 by done. reflexivity.
Qed.

Lemma toggle_from_light (p : Page) :
  "theme-dark" ∉ html_classList p →
  _toggleTheme p
  = dispatchEvent (theme_changed "dark")
      (setItem "theme" "dark" (classList_add "theme-dark" p)).
Proof.
  intros Hin. unfold _toggleTheme, classList_contains.
  rewrite bool_decide_eq_false_2 by done. reflexivity.
Qed.

Lemma attached_once (p0 : Page) (p : Page) :
  click (connectedCallback constructor p0).1 p = _toggleTheme p.
Proof. reflexivity. Qed.

Lemma toggle_mirrors (p : Page) : mirrors (_toggleTheme p).
Proof.
  destruct (decide ("theme-dark" ∈ html_classList p)) as [Hin|Hin].
  - rewrite toggle_from_dark by done. unfold mirrors, getItem. simpl.
    rewrite lookup_insert_eq. split; [by left|].
    split; [discriminate|].
    rewrite elem_of_difference, elem_of_singleton. by intros [_ []].
  - rewrite toggle_from_light by done. unfold mirrors, getItem. simpl.
    rewrite lookup_insert_eq. split; [by right|].
    split; [|done]. intros _. apply elem_of_union_l. by apply elem_of_singleton.
Qed.

Lemma toggle_flag_flips (p : Page) :
  "theme-dark" ∈ html_classList (_toggleTheme p)
  ↔ "theme-dark" ∉ html_classList p.
Proof.
  destruct (decide ("theme-dark" ∈ html_classList p)) as [Hin|Hin].
  - rewrite toggle_from_dark by done. simpl.
    rewrite elem_of_difference, elem_of_singleton. tauto.
  - rewrite toggle_from_light by done. simpl.
    rewrite elem_of_union, elem_of_singleton. tauto.
Qed.

Lemma toggle_twice_classList (p : Page) :
  html_classList (_toggleTheme (_toggleTheme p)) = html_classList p.
Proof.
  destruct (decide ("theme-dark" ∈ html_classList p)) as [Hin|Hin].
  - assert (Hout : "theme-dark" ∉ html_classList (_toggleTheme p))
      by (rewrite toggle_flag_flips; tauto).
    rewrite (toggle_from_light _ Hout), (toggle_from_dark p Hin).
    cbn [html_classList dispatchEvent setItem classList_add classList_remove].
    apply set_eq. intros x.
    rewrite elem_of_union, elem_of_difference, elem_of_singleton.
    destruct (decide (x = "theme-dark")) as [->|]; tauto.
  - assert (Hout : "theme-dark" ∈ html_classList (_toggleTheme p))
      by (by rewrite toggle_flag_flips).
    rewrite (toggle_from_dark _ Hout), (toggle_from_light p Hin).
    cbn [html_classList dispatchEvent setItem classList_add classList_remove].
    apply set_eq. intros x.
    rewrite elem_of_difference, elem_of_union, elem_of_singleton.
    destruct (decide (x = "theme-dark")) as [->|]; tauto.
Qed.

Lemma toggle_stores_theme (p : Page) :
  localStorage (_toggleTheme p)
  = <["theme" := theme_of (_toggleTheme p)]> (localStorage p).
Proof.
  unfold theme_of, classList_contains.
  destruct (decide ("theme-dark" ∈ html_classList p)) as [Hin|Hin].
  - rewrite bool_decide_eq_false_2 by (by rewrite toggle_flag_flips; tauto).
    by rewrite toggle_from_dark.
  - rewrite bool_decide_eq_true_2 by (by rewrite toggle_flag_flips).
    by rewrite toggle_from_light.
Qed.

Lemma theme_of_toggle_twice (p : Page) :
  theme_of (_toggleTheme (_toggleTheme p)) = theme_of p.
Proof.
  unfold theme_of, classList_contains.
  by rewrite toggle_twice_classList.
Qed.

(** C6, as stated, fails: on a first visit nothing is stored; after the
    toggle of the page has been activated twice the document flag is
    clear again, but the storage holds ["light"]. *)
Lemma two_toggles_leave_a_stored_value :
  let '(t, p) := load_and_attach first_visit in
  html_classList (click t (click t p)) = html_classList p ∧
  getItem "theme" p = None ∧
  getItem "theme" (click t (click t p)) = Some "light".
Proof.
  cbn [load_and_attach connectedCallback]. split; [|split].
  - apply (toggle_twice_classList
             (_loadSavedTheme (auto_initialize first_visit))).
  - reflexivity.
  - vm_compute. reflexivity.
Qed.

(** C6, amended: for every state of the document flag and of the
    storage, activating an attached toggle twice returns the document
    flag to its original state and leaves in the storage the theme that
    flag stands for (["dark"] when set, ["light"] when clear), the other
    keys being untouched; the stored value is the original one exactly
    when it was that theme before. *)
Theorem two_toggles_restore_flag (p0 p : Page) :
  let t := (connectedCallback constructor p0).1 in
  let p2 := click t (click t p) in
  html_classList p2 = html_classList p ∧
  localStorage p2 = <["theme" := theme_of p]> (localStorage p) ∧
  (getItem "theme" p2 = getItem "theme" p
   ↔ getItem "theme" p = Some (theme_of p)).
Proof.
  cbv zeta. rewrite !attached_once.
  assert (Hst : localStorage (_toggleTheme (_toggleTheme p))
                = <["theme" := theme_of p]> (localStorage p)).
  { rewrite (toggle_stores_theme (_toggleTheme p)), theme_of_toggle_twice.
    rewrite (toggle_stores_theme p). apply insert_insert_eq. }
  split; [apply toggle_twice_classList|]. split; [exact Hst|].
  unfold getItem. rewrite Hst, lookup_insert_eq. split; congruence.
Qed.

(** C7, as stated, fails: nothing is stored, but the root element
    carries [theme-dark] in the markup of the page. The script and the
    attachment of a toggle leave the class where it is, so the initial
    state is dark; the first activation clears the flag, stores
    ["light"] and dispatches [{theme: "light"}]. *)
Lemma dark_markup_first_activation_goes_light :
  let p := classList_add "theme-dark" first_visit in
  let '(t, p1) := load_and_attach p in
  getItem "theme" p = None ∧
  ("theme-dark" ∈ html_classList p1) ∧
  ("theme-dark" ∉ html_classList (click t p1)) ∧
  getItem "theme" (click t p1) = Some "light" ∧
  dispatched (click t p1) = [theme_changed "light"].
Proof.
  cbn [load_and_attach connectedCallback].
  change (click _ ?q) with (_toggleTheme q).
  change (_loadSavedTheme (auto_initialize ?q)) with q.
  assert (Hdark : "theme-dark"
                  ∈ html_classList (classList_add "theme-dark" first_visit)).
  { cbn [html_classList classList_add]. apply elem_of_union_l.
    by apply elem_of_singleton. }
  split; [reflexivity|]. split; [exact Hdark|].
  rewrite toggle_flag_flips. split; [tauto|].
  rewrite toggle_from_dark by exact Hdark. split; [|reflexivity].
  unfold getItem. cbn [localStorage dispatchEvent setItem].
  apply lookup_insert_eq.
Qed.

(** C7, amended: a page without a stored preference whose root element
    does not carry the dark flag when the script loads stays light when
    the script loads and a toggle is attached; one activation of that
    toggle sets the flag, stores ["dark"] under ["theme"] and dispatches
    one bubbling, composed [theme-changed] event with the payload
    [{theme: "dark"}]. *)
Theorem first_activation_goes_dark (p : Page) :
  getItem "theme" p = None →
  "theme-dark" ∉ html_classList p →
  let '(t, p1) := load_and_attach p in
  ("theme-dark" ∉ html_classList p1) ∧
  dispatched p1 = dispatched p ∧
  ("theme-dark" ∈ html_classList (click t p1)) ∧
  getItem "theme" (click t p1) = Some "dark" ∧
  dispatched (click t p1)
  = (dispatched p ++
      [{| ev_type := "theme-changed"; ev_detail := [("theme", "dark")];
          ev_bubbles := true; ev_composed := true |}])%list.
Proof.
  intros Hnone Hlight.
  assert (Hload : _loadSavedTheme (auto_initialize p) = p).
  { unfold auto_initialize. rewrite Hnone.
    rewrite decide_False by discriminate.
    unfold _loadSavedTheme. rewrite Hnone.
    by rewrite decide_False by discriminate. }
  unfold load_and_attach. cbn [connectedCallback]. rewrite Hload.
  change (click _ p) with (_toggleTheme p).
  rewrite toggle_from_light by done. unfold getItem. simpl.
  rewrite lookup_insert_eq. repeat split; try done.
  apply elem_of_union_l. by apply elem_of_singleton.
Qed.

Lemma first_activation_goes_dark_witness :
  let '(t, p1) := load_and_attach first_visit in
  ("theme-dark" ∉ html_classList p1) ∧
  dispatched p1 = [] ∧
  ("theme-dark" ∈ html_classList (click t p1)) ∧
  getItem "theme" (click t p1) = Some "dark" ∧
  dispatched (click t p1) = [theme_changed "dark"].
Proof.
  refine (first_activation_goes_dark first_visit _ _).
  - reflexivity.
  - apply not_elem_of_empty.
Defined.

(** C8: after every activation of an attached toggle the stored value
    is ["light"] or ["dark"], and it is ["dark"] exactly when the
    document flag is set; a toggle step preserves that correspondence,
    and the function run at load time, like the attachment of a toggle,
    establishes it when the storage holds ["dark"]. *)
Theorem stored_theme_mirrors_flag (t : FrmwrkThemeToggle) (p : Page) :
  ((0 < button_click_listeners t)%nat → mirrors (click t p)) ∧
  (mirrors p → mirrors (_toggleTheme p)) ∧
  (getItem "theme" p = Some "dark" →
   mirrors (auto_initialize p) ∧ mirrors (_loadSavedTheme p)).
Proof.
  split; [|split].
  - unfold click. destruct (button_click_listeners t) as [|n]; [lia|].
    intros _. cbn [Nat.iter nat_rect]. apply toggle_mirrors.
  - intros _. apply toggle_mirrors.
  - intros Hdark. unfold auto_initialize, _loadSavedTheme, _updateIcon.
    rewrite Hdark, decide_True by done.
    assert (mirrors (classList_add "theme-dark" p)) as Hm; [|by split].
    unfold mirrors, getItem. cbn [localStorage html_classList classList_add].
    unfold getItem in Hdark. rewrite Hdark.
    split; [by right|]. split; [|done].
    intros _. apply elem_of_union_l. by apply elem_of_singleton.
Qed.

Lemma stored_theme_mirrors_flag_witness :
  let p := setItem "theme" "dark" first_visit in
  mirrors (click (load_and_attach p).1 p) ∧
  (mirrors (auto_initialize p) ∧ mirrors (_loadSavedTheme p)).
Proof.
  pose proof (stored_theme_mirrors_flag
                (load_and_attach (setItem "theme" "dark" first_visit)).1
                (setItem "theme" "dark" first_visit)) as [Hclick [_ Hload]].
  split.
  - apply Hclick. cbn. lia.
  - apply Hload. reflexivity.
Defined.

End theme.

(** ** The alert: the reaction to the [open] attribute *)
Section alert_reactions.

Import Alert.

Lemma observed_open : bool_decide ("open" ∈ observedAttributes) = true.
Proof. apply bool_decide_eq_true_2. unfold observedAttributes. listed. Qed.


(** A re-render leaves everything but the tree as it was. *)
Lemma updateDismissible_frame (a : FrmwrkAlert) :
  _variant (_updateDismissible a) = _variant a ∧
  _dismissible (_updateDismissible a) = _dismissible a ∧
  _open (_updateDismissible a) = _open a ∧
  attributes (_updateDismissible a) = attributes a ∧
  now (_updateDismissible a) = now a ∧
  timers (_updateDismissible a) = timers a ∧
  dispatched (_updateDismissible a) = dispatched a.
Proof.
  destruct a as [v d o m t n l e].
  unfold _updateDismissible, _render.
  cbn [_variant _dismissible _shadowRoot with_shadowRoot].
  destruct d; [|done].
  by destruct (close_button (rendered v true)).
Qed.

Lemma rendered_template (v : string) (d : bool) :
  template_variant v = true →
  rendered v d
  = {| alert_className := "alert " +:+ v;
       alert_dismissing := false;
       close_button :=
         if d then Some {| click_listeners := 0; keydown_listeners := 0 |}
         else None;
       tree_known := true |}.
Proof. intros Hv. unfold rendered. by rewrite Hv. Qed.

Lemma reaction_unchanged (fuel : nat) (name : string) (v : option string)
    (a : FrmwrkAlert) :
  attributeChangedCallback (S fuel) name v v a = Some a.
Proof. cbn [attributeChangedCallback]. by rewrite decide_True. Qed.

Lemma reaction_open (fuel : nat) (old new : option string) (a : FrmwrkAlert) :
  old ≠ new →
  attributeChangedCallback (S fuel) "open" old new a
  = _updateVisibility fuel
      (with_open (bool_decide (new ≠ Some "false")
                  && bool_decide (new ≠ None)) a).
Proof.
  intros Hne. cbn [attributeChangedCallback].
  rewrite decide_False by done.
  destruct (decide ("open" = "variant")); [discriminate|].
  destruct (decide ("open" = "dismissible")); [discriminate|].
  destruct (decide ("open" = "open")); [reflexivity|done].
Qed.


Lemma open_flag_cleared (new : option string) :
  new = None ∨ new = Some "false" →
  bool_decide (new ≠ Some "false") && bool_decide (new ≠ None) = false.
Proof.
  intros [-> | ->]; apply andb_false_iff; [right|left];
    apply bool_decide_eq_false_2; intros H; by apply H.
Qed.

Lemma closed_of_is_closed (a : FrmwrkAlert) : is_closed (closed_of a).
Proof. split; [reflexivity|]. cbn. apply lookup_insert_eq. Qed.

Lemma dispatch_closed (e : CustomEvent) (a : FrmwrkAlert) :
  is_closed a → is_closed (dispatchEvent e a).
Proof. intros H. exact H. Qed.

Lemma closed_of_closed (a : FrmwrkAlert) : is_closed a → closed_of a = a.
Proof.
  intros [Ho Ha]. destruct a; cbn in *. subst.
  unfold closed_of, with_attributes, with_open; cbn.
  by rewrite insert_id.
Qed.

(** Writing [open="false"] on an alert whose flag is cleared ends in the
    closed form, after at most two reactions. *)
Lemma setAttribute_open_false (fuel : nat) (a : FrmwrkAlert) :
  _open a = false →
  setAttribute (S (S fuel)) "open" "false" a = Some (closed_of a).
Proof.
  intros Ho. unfold setAttribute, setAttribute_with, write_attribute. lower_names.
  rewrite observed_open.
  destruct (decide (attributes a !! "open" = Some "false")) as [He|Hne].
  - rewrite He, reaction_unchanged. f_equal.
    destruct a; cbn in *. by subst.
  - rewrite reaction_open by done.
    rewrite open_flag_cleared by (by right).
    unfold _updateVisibility, _updateVisibility_with.
    cbn [_open with_open with_attributes negb].
    unfold setAttribute_with, write_attribute. lower_names. rewrite observed_open.
    cbn [attributes with_attributes with_open].
    rewrite lookup_insert_eq, reaction_unchanged. f_equal.
    unfold closed_of, with_attributes, with_open; cbn.
    by rewrite insert_insert_eq.
Qed.

(** The reaction to a removed [open] attribute, or to [open="false"]:
    the flag is cleared and [open="false"] is written. *)
Lemma open_reaction_closes (fuel : nat) (old new : option string)
    (a : FrmwrkAlert) :
  old ≠ new → new = None ∨ new = Some "false" →
  attributeChangedCallback (S (S (S fuel))) "open" old new a
  = Some (closed_of a).
Proof.
  intros Hne Hnew. rewrite reaction_open by done.
  rewrite open_flag_cleared by done.
  unfold _updateVisibility, _updateVisibility_with.
  cbn [_open with_open negb].
  apply (setAttribute_open_false fuel (with_open false a)). reflexivity.
Qed.

Lemma removeAttribute_open (fuel : nat) (v : string) (a : FrmwrkAlert) :
  attributes a !! "open" = Some v →
  removeAttribute (S (S (S fuel))) "open" a = Some (closed_of a).
Proof.
  intros Hv. unfold removeAttribute, removeAttribute_with, drop_attribute. lower_names.
  rewrite Hv, observed_open.
  rewrite open_reaction_closes by (done || by left). f_equal.
  unfold closed_of, with_attributes, with_open; cbn.
  by rewrite insert_delete_eq.
Qed.

Lemma dismiss_timeout_closes (fuel : nat) (a : FrmwrkAlert) :
  dismiss_timeout (S (S fuel)) a
  = Some (dispatchEvent (alert_dismissed (_variant a)) (closed_of a)).
Proof.
  unfold dismiss_timeout.
  rewrite (setAttribute_open_false fuel (with_open false a)) by done.
  reflexivity.
Qed.

End alert_reactions.

(** ** The alert: attributes and [show] *)
Section alert_attributes.

Import Alert.

(** C10: removing the [open] attribute of an alert that carries one
    closes the alert: the reaction to the [null] value clears the flag
    and writes [open="false"] on the host. *)
Theorem removed_open_attribute_closes
    (fuel : nat) (v : string) (a : FrmwrkAlert) :
  (3 ≤ fuel)%nat →
  attributes a !! "open" = Some v →
  (∃ a', removeAttribute fuel "open" a = Some a' ∧
         _open a' = false ∧ attributes a' !! "open" = Some "false") ∧
  (∃ a', attributeChangedCallback fuel "open" (Some v) None a = Some a' ∧
         _open a' = false ∧ attributes a' !! "open" = Some "false").
Proof.
  intros Hfuel Hv.
  destruct fuel as [|[|[|fuel]]]; [lia..|].
  split; exists (closed_of a); split.
  - by apply (removeAttribute_open fuel v).
  - apply closed_of_is_closed.
  - apply open_reaction_closes; [discriminate|by left].
  - apply closed_of_is_closed.
Qed.

Lemma removed_open_attribute_closes_witness :
  (∃ a', removeAttribute 3 "open" marked_open = Some a' ∧
         _open a' = false ∧ attributes a' !! "open" = Some "false") ∧
  (∃ a', attributeChangedCallback 3 "open" (Some "true") None marked_open
         = Some a' ∧
         _open a' = false ∧ attributes a' !! "open" = Some "false").
Proof.
  refine (removed_open_attribute_closes 3 "true" marked_open _ _).
  - lia.
  - reflexivity.
Defined.

(** C2 fails on the code: [show] sets the flag and removes the
    attribute, the removal runs the reaction of C10, and the alert is
    closed again before [show] returns: on every closed alert [show]
    changes nothing. *)
Theorem show_leaves_alert_closed (fuel : nat) (a : FrmwrkAlert) :
  (3 ≤ fuel)%nat →
  is_closed a →
  show fuel a = Some a ∧
  _open a = false ∧ attributes a !! "open" = Some "false".
Proof.
  intros Hfuel Hclosed.
  destruct fuel as [|[|[|fuel]]]; [lia..|].
  split; [|exact Hclosed].
  unfold show.
  rewrite (removeAttribute_open fuel "false" (with_open true a))
    by apply Hclosed.
  change (closed_of (with_open true a)) with (closed_of a).
  f_equal. by apply closed_of_closed.
Qed.

Lemma show_leaves_alert_closed_witness :
  show 3 (closed_of constructor) = Some (closed_of constructor) ∧
  _open (closed_of constructor) = false ∧
  attributes (closed_of constructor) !! "open" = Some "false".
Proof.
  refine (show_leaves_alert_closed 3 (closed_of constructor) _ _).
  - lia.
  - apply closed_of_is_closed.
Defined.

(** The same on the alert of the page: dismissed, closed after the
    delay, then shown. *)
Example show_after_dismiss :
  run 3 [Dismiss; Advance 300; Show] constructor
  = run 3 [Dismiss; Advance 300] constructor ∧
  _open <$> run 3 [Dismiss; Advance 300; Show] constructor = Some false.
Proof. vm_compute. split; reflexivity. Qed.

(** The alert of the markup
    [<frmwrk-alert variant="warning" dismissible open="false">]: rendered
    with its variant and its close control, and closed. *)
Example declared_closed_alert :
  (λ a, (_open a, attributes a !! "open",
         alert_className (_shadowRoot a), close_button (_shadowRoot a))) <$>
    run 3 [SetAttribute "variant" "warning"; SetAttribute "dismissible" "";
           SetAttribute "open" "false"; Connect] constructor
  = Some (false, Some "false", "alert warning",
          Some {| click_listeners := 2; keydown_listeners := 1 |}).
Proof. vm_compute. reflexivity. Qed.




End alert_attributes.

(** ** The alert: the dismiss lifecycle *)
Section alert_lifecycle.

Import Alert.

(** *** Timers *)

Lemma due_all (t : nat) (l : list nat) :
  Forall (λ d : nat, (d ≤ t)%nat) l →
  filter (λ d : nat, (d ≤ t)%nat) l = l ∧
  filter (λ d : nat, ¬ (d ≤ t)%nat) l = [].
Proof.
  induction 1 as [|d l Hd _ [IH1 IH2]]; [done|].
  rewrite filter_cons_True by done.
  rewrite filter_cons_False by tauto.
  by rewrite IH1, IH2.
Qed.




(** *** One request *)




(** C1 fails on the code for the alert the documentation shows,
    [<frmwrk-alert dismissible>]: the reaction to the attribute and
    [connectedCallback] each register a [click] listener on the same
    close button, so one click runs [_dismiss] twice and, after the
    delay, two [alert-dismissed] events are dispatched. *)
Theorem declared_alert_click_dismisses_twice :
  (close_button ∘ _shadowRoot) <$>
     run 3 [SetAttribute "dismissible" ""; Connect] constructor
  = Some (Some {| click_listeners := 2; keydown_listeners := 1 |}) ∧
  timers <$>
     run 3 [SetAttribute "dismissible" ""; Connect; ClickClose] constructor
  = Some [300; 300] ∧
  dispatched <$>
     run 3 [SetAttribute "dismissible" ""; Connect; ClickClose; Advance 300]
       constructor
  = Some [alert_dismissed "info"; alert_dismissed "info"].
Proof. vm_compute. repeat split; reflexivity. Qed.

(** On the same alert the key handler and the public method run
    [_dismiss] once, and one event follows. *)
Example declared_alert_other_requests :
  dispatched <$>
     run 3 [SetAttribute "dismissible" ""; Connect; KeydownClose "Enter";
            Advance 300] constructor
  = Some [alert_dismissed "info"] ∧
  dispatched <$>
     run 3 [SetAttribute "dismissible" ""; Connect; Dismiss; Advance 300]
       constructor
  = Some [alert_dismissed "info"].
Proof. vm_compute. split; reflexivity. Qed.

(** *** Two requests *)






End alert_lifecycle.

(** ** The alert: the close control *)
Section alert_close_control.

Import Alert.

(** *** Every run ends *)

Lemma reaction_total (fuel : nat) (name : string) (old new : option string)
    (a : FrmwrkAlert) :
  is_Some (attributeChangedCallback (S (S (S (S fuel)))) name old new a).
Proof.
  destruct (decide (old = new)) as [->|Hne].
  { by rewrite reaction_unchanged. }
  destruct (decide (name = "open")) as [->|Hname].
  - rewrite reaction_open by done.
    unfold _updateVisibility, _updateVisibility_with.
    destruct (bool_decide (new ≠ Some "false") && bool_decide (new ≠ None));
      cbn [_open with_open negb].
    + unfold removeAttribute_with, drop_attribute. lower_names.
      destruct (attributes (with_open true a) !! "open") as [v|] eqn:Hv;
        [|done].
      rewrite observed_open.
      rewrite open_reaction_closes by (done || by left). done.
    + change (is_Some (setAttribute (S (S (S fuel))) "open" "false"
                         (with_open false a))).
      by rewrite setAttribute_open_false.
  - cbn [attributeChangedCallback]. rewrite decide_False by done.
    repeat case_decide; done.
Qed.

Lemma fire_total (fuel n : nat) (a : FrmwrkAlert) :
  is_Some (fire (S (S fuel)) n a).
Proof.
  revert a. induction n as [|n IH]; intros a; [done|].
  cbn [fire]. rewrite dismiss_timeout_closes. apply IH.
Qed.

Lemma step_total (fuel : nat) (act : action) (a : FrmwrkAlert) :
  is_Some (step (S (S (S (S fuel)))) act a).
Proof.
  destruct act; cbn [step]; try done.
  - unfold setAttribute, setAttribute_with, write_attribute. lower_names.
    case_bool_decide; [apply reaction_total|done].
  - unfold removeAttribute, removeAttribute_with, drop_attribute. lower_names.
    destruct (attributes a !! _); [|done].
    case_bool_decide; [apply reaction_total|done].
  - unfold show, removeAttribute, removeAttribute_with, drop_attribute. lower_names.
    destruct (attributes (with_open true a) !! "open"); [|done].
    case_bool_decide; [apply reaction_total|done].
  - apply fire_total.
Qed.

(** With four levels of nested reactions allowed, every sequence of
    actions runs to its end. *)
Lemma run_total (fuel : nat) (acts : list action) (a : FrmwrkAlert) :
  is_Some (run (S (S (S (S fuel)))) acts a).
Proof.
  revert a. induction acts as [|act acts IH]; intros a; [done|].
  cbn [run]. destruct (step_total fuel act a) as [a1 ->]. apply IH.
Qed.

(** *** What a reaction preserves *)

Section preserved.

Variable P : FrmwrkAlert → Prop.
Hypothesis P_open : ∀ o a, P a → P (with_open o a).
Hypothesis P_attributes : ∀ m a, P a → P (with_attributes m a).
Hypothesis P_variant : ∀ v a, P a → P (_updateVariant (with_variant v a)).
Hypothesis P_dismissible :
  ∀ d a, P a → P (_updateDismissible (with_dismissible d a)).

Lemma reaction_preserves (fuel : nat) :
  ∀ name old new a a',
    P a → attributeChangedCallback fuel name old new a = Some a' → P a'.
Proof.
  induction fuel as [|fuel IH]; intros name old new a a' HP Hrun;
    [discriminate|].
  cbn [attributeChangedCallback] in Hrun.
  destruct (decide (old = new)); [simplify_eq; auto|].
  destruct (decide (name = "variant")); [simplify_eq; auto|].
  destruct (decide (name = "dismissible")); [simplify_eq; auto|].
  destruct (decide (name = "open")); [|simplify_eq; auto].
  unfold _updateVisibility_with, setAttribute_with, removeAttribute_with,
    write_attribute, drop_attribute in Hrun.
  rewrite ?lower_open in Hrun.
  destruct (negb _).
  - case_bool_decide; [|simplify_eq; auto].
    eapply IH; [|exact Hrun]. auto.
  - destruct (attributes _ !! "open"); [|simplify_eq; auto].
    case_bool_decide; [|simplify_eq; auto].
    eapply IH; [|exact Hrun]. auto.
Qed.

Hypothesis P_now : ∀ t a, P a → P (with_now t a).
Hypothesis P_timers : ∀ l a, P a → P (with_timers l a).
Hypothesis P_dispatch : ∀ e a, P a → P (dispatchEvent e a).
Hypothesis P_dismiss : ∀ a, P a → P (_dismiss a).
Hypothesis P_connected : ∀ a, P a → P (connectedCallback a).

Lemma setAttribute_preserves (fuel : nat) (name value : string)
    (a a' : FrmwrkAlert) :
  P a → setAttribute fuel name value a = Some a' → P a'.
Proof.
  unfold setAttribute, setAttribute_with, write_attribute. lower_names. intros HP Hrun.
  case_bool_decide; [|simplify_eq; auto].
  eapply reaction_preserves; [|exact Hrun]. auto.
Qed.

Lemma removeAttribute_preserves (fuel : nat) (name : string)
    (a a' : FrmwrkAlert) :
  P a → removeAttribute fuel name a = Some a' → P a'.
Proof.
  unfold removeAttribute, removeAttribute_with, drop_attribute. lower_names. intros HP Hrun.
  destruct (attributes a !! _); [|simplify_eq; auto].
  case_bool_decide; [|simplify_eq; auto].
  eapply reaction_preserves; [|exact Hrun]. auto.
Qed.

Lemma fire_preserves (fuel n : nat) :
  ∀ a a', P a → fire fuel n a = Some a' → P a'.
Proof.
  induction n as [|n IH]; intros a a' HP Hrun; cbn [fire] in Hrun;
    [simplify_eq; auto|].
  unfold dismiss_timeout in Hrun.
  destruct (setAttribute fuel "open" "false" (with_open false a))
    as [a1|] eqn:Hset; [|discriminate].
  cbn [mbind option_bind] in Hrun.
  eapply IH; [|exact Hrun].
  apply P_dispatch. eapply setAttribute_preserves; [|exact Hset]. auto.
Qed.

Lemma iter_preserves (f : FrmwrkAlert → FrmwrkAlert) (n : nat) :
  (∀ a, P a → P (f a)) → ∀ a, P a → P (Nat.iter n f a).
Proof.
  intros Hf a HP. induction n as [|n IH]; cbn [Nat.iter nat_rect]; auto.
Qed.

Lemma step_preserves (fuel : nat) (act : action) (a a' : FrmwrkAlert) :
  P a → step fuel act a = Some a' → P a'.
Proof.
  intros HP Hrun. destruct act; cbn [step] in Hrun.
  - by eapply setAttribute_preserves.
  - by eapply removeAttribute_preserves.
  - simplify_eq; auto.
  - simplify_eq; auto.
  - simplify_eq. unfold click_close.
    destruct (close_button _); [|done]. by apply iter_preserves.
  - simplify_eq. unfold keydown_close.
    destruct (close_button _); [|done]. apply iter_preserves; [|done].
    intros a1 H1. unfold keydown_handler. destruct (_ || _); auto.
  - unfold show in Hrun.
    eapply removeAttribute_preserves; [|exact Hrun]. auto.
  - simplify_eq; auto.
  - unfold advance in Hrun.
    eapply fire_preserves; [|exact Hrun]. auto.
Qed.

Lemma run_preserves (fuel : nat) (acts : list action) :
  ∀ a a', P a → run fuel acts a = Some a' → P a'.
Proof.
  induction acts as [|act acts IH]; intros a a' HP Hrun; cbn [run] in Hrun;
    [simplify_eq; auto|].
  destruct (step fuel act a) as [a1|] eqn:Hstep; [|discriminate].
  cbn [mbind option_bind] in Hrun.
  eapply IH; [|exact Hrun]. by eapply step_preserves.
Qed.

End preserved.

(** *** The template in runs that keep to its variants *)

Lemma template_variant_intact (v : string) :
  template_variant v = true →
  bool_decide ("icon" ∉ class_tokens v)
  && bool_decide ("close-button" ∉ class_tokens v) = true.
Proof.
  unfold template_variant. rewrite !andb_true_iff. tauto.
Qed.

Lemma template_js_or (new : option string) :
  (∀ v, new = Some v → template_variant v = true) →
  template_variant (js_or new "info") = true.
Proof.
  intros Hnew. destruct new as [v|]; [|reflexivity].
  unfold js_or. case_decide; [reflexivity|]. by apply Hnew.
Qed.

Section kept_on_template.

Variable P : FrmwrkAlert → Prop.
Hypothesis T_open : ∀ o a, P a → P (with_open o a).
Hypothesis T_attributes : ∀ m a, P a → P (with_attributes m a).
Hypothesis T_variant :
  ∀ new a, template_variant (js_or new "info") = true →
    P a → P (_updateVariant (with_variant (js_or new "info") a)).
Hypothesis T_dismissible :
  ∀ d a, P a → P (_updateDismissible (with_dismissible d a)).
Hypothesis T_now : ∀ t a, P a → P (with_now t a).
Hypothesis T_timers : ∀ l a, P a → P (with_timers l a).
Hypothesis T_dispatch : ∀ e a, P a → P (dispatchEvent e a).
Hypothesis T_dismiss : ∀ a, P a → P (_dismiss a).
Hypothesis T_connected : ∀ a, P a → P (connectedCallback a).

Lemma reaction_keeps_template (fuel : nat) :
  ∀ name old new a a',
    (name = "variant" → template_variant (js_or new "info") = true) →
    P a → attributeChangedCallback fuel name old new a = Some a' → P a'.
Proof.
  induction fuel as [|fuel IH]; intros name old new a a' Hnew HP Hrun;
    [discriminate|].
  cbn [attributeChangedCallback] in Hrun.
  destruct (decide (old = new)); [simplify_eq; auto|].
  destruct (decide (name = "variant")); [simplify_eq; auto|].
  destruct (decide (name = "dismissible")); [simplify_eq; auto|].
  destruct (decide (name = "open")); [|simplify_eq; auto].
  unfold _updateVisibility_with, setAttribute_with, removeAttribute_with,
    write_attribute, drop_attribute in Hrun.
  rewrite ?lower_open in Hrun.
  destruct (negb _).
  - case_bool_decide; [|simplify_eq; auto].
    eapply IH; [| |exact Hrun]; [discriminate|auto].
  - destruct (attributes _ !! "open"); [|simplify_eq; auto].
    case_bool_decide; [|simplify_eq; auto].
    eapply IH; [| |exact Hrun]; [discriminate|auto].
Qed.

Lemma fire_keeps_template (fuel n : nat) :
  ∀ a a', P a → fire fuel n a = Some a' → P a'.
Proof.
  induction n as [|n IH]; intros a a' HP Hrun; cbn [fire] in Hrun;
    [simplify_eq; auto|].
  unfold dismiss_timeout, setAttribute, setAttribute_with, write_attribute
    in Hrun.
  rewrite lower_open, observed_open in Hrun.
  match type of Hrun with
  | context [attributeChangedCallback fuel "open" ?o ?v ?x] =>
      destruct (attributeChangedCallback fuel "open" o v x)
        as [a1|] eqn:Hset; [|discriminate]
  end.
  cbn [mbind option_bind] in Hrun.
  eapply IH; [|exact Hrun].
  apply T_dispatch.
  eapply reaction_keeps_template; [| |exact Hset]; [discriminate|auto].
Qed.

Lemma step_keeps_template (fuel : nat) (act : action) (a a' : FrmwrkAlert) :
  plain_action act → P a → step fuel act a = Some a' → P a'.
Proof.
  intros Hact HP Hrun. destruct act as [name value|name| | | |key| | |ms];
    cbn [step] in Hrun.
  - unfold setAttribute, setAttribute_with, write_attribute in Hrun.
    case_bool_decide; [|simplify_eq; auto].
    eapply reaction_keeps_template; [| |exact Hrun]; [|auto].
    intros Hname. apply template_js_or. intros v [= <-]. by apply Hact.
  - unfold removeAttribute, removeAttribute_with, drop_attribute in Hrun.
    destruct (attributes a !! _); [|simplify_eq; auto].
    case_bool_decide; [|simplify_eq; auto].
    eapply reaction_keeps_template; [| |exact Hrun]; [|auto].
    intros _. reflexivity.
  - simplify_eq; auto.
  - simplify_eq; auto.
  - simplify_eq. unfold click_close.
    destruct (close_button _); [|done]. by apply iter_preserves.
  - simplify_eq. unfold keydown_close.
    destruct (close_button _); [|done]. apply iter_preserves; [|done].
    intros a1 H1. unfold keydown_handler. destruct (_ || _); auto.
  - unfold show, removeAttribute, removeAttribute_with, drop_attribute
      in Hrun.
    rewrite lower_open, observed_open in Hrun.
    destruct (attributes _ !! "open"); [|simplify_eq; auto].
    eapply reaction_keeps_template; [| |exact Hrun]; [discriminate|auto].
  - simplify_eq; auto.
  - unfold advance in Hrun.
    eapply fire_keeps_template; [|exact Hrun]. auto.
Qed.

Lemma run_keeps_template (fuel : nat) (acts : list action) :
  ∀ a a', Forall plain_action acts → P a →
          run fuel acts a = Some a' → P a'.
Proof.
  induction acts as [|act acts IH]; intros a a' Hacts HP Hrun;
    cbn [run] in Hrun; [simplify_eq; auto|].
  apply Forall_cons in Hacts as [Hact Hacts].
  destruct (step fuel act a) as [a1|] eqn:Hstep; [|discriminate].
  cbn [mbind option_bind] in Hrun.
  eapply IH; [exact Hacts| |exact Hrun]. by eapply step_keeps_template.
Qed.

End kept_on_template.

(** In a run that writes only such variants the tree is the one of the
    template, with a close button exactly when the alert is
    dismissible. *)
Lemma control_matches_reachable (fuel : nat) (acts : list action)
    (a : FrmwrkAlert) :
  Forall plain_action acts →
  run fuel acts constructor = Some a → control_matches a.
Proof.
  intros Hacts Hrun.
  eapply (run_keeps_template control_matches);
    [..|exact Hacts| |exact Hrun]; try (intros; assumption).
  - intros new a0 Hnew (Hv & Hk & Hc & Hb).
    unfold control_matches.
    cbn [_variant _dismissible _shadowRoot _updateVariant with_variant
         with_shadowRoot alert_className tree_known close_button].
    rewrite Hk. cbn [andb].
    by rewrite (template_variant_intact _ Hnew).
  - intros d a0 (Hv & _). unfold control_matches.
    destruct (updateDismissible_frame (with_dismissible d a0))
      as (Hvar & Hdis & _).
    rewrite Hvar, Hdis. cbn [_variant _dismissible with_dismissible].
    split; [exact Hv|].
    unfold _updateDismissible, _render.
    cbn [_variant _dismissible _shadowRoot with_dismissible with_shadowRoot].
    rewrite rendered_template by done. by destruct d.
  - intros a0 (Hv & Hk & Hc & Hb). unfold control_matches, connectedCallback.
    destruct (close_button (_shadowRoot a0)) eqn:Hbutton.
    + cbn. do 3 (split; [done|]). split; [discriminate|].
      intros Hd. apply Hb in Hd. discriminate.
    + unfold control_matches. by rewrite Hbutton.
  - unfold control_matches. by repeat split.
Qed.

(** C5, as stated, fails: the alert as constructed is not dismissible,
    and [dismiss()] puts it in the dismissing state, schedules the
    completion, and the alert is closed after the delay. *)
Lemma dismiss_ignores_dismissible :
  _dismissible constructor = false ∧
  alert_dismissing (_shadowRoot constructor) = false ∧
  alert_dismissing (_shadowRoot (dismiss constructor)) = true ∧
  timers (dismiss constructor) = [300] ∧
  _open <$> run 3 [Dismiss; Advance 300] constructor = Some false ∧
  dispatched <$> run 3 [Dismiss; Advance 300] constructor
  = Some [alert_dismissed "info"].
Proof. vm_compute. repeat split; reflexivity. Qed.

(** C5, amended: an alert whose dismissible flag is false, whatever
    has been done to it since its construction by actions that write
    only template variants, has no close control in its tree, so that a
    click or a key on the control changes nothing; a programmatic
    [dismiss()] still starts the dismissing transition and schedules its
    completion. *)
Theorem no_close_control_unless_dismissible
    (fuel : nat) (acts : list action) (a : FrmwrkAlert) :
  run fuel acts constructor = Some a →
  Forall plain_action acts →
  _dismissible a = false →
  tree_known (_shadowRoot a) = true ∧
  close_button (_shadowRoot a) = None ∧
  click_close a = a ∧
  (∀ key, keydown_close key a = a) ∧
  alert_dismissing (_shadowRoot (dismiss a)) = true ∧
  timers (dismiss a) = (timers a ++ [now a + dismiss_delay])%list.
Proof.
  intros Hrun Hacts Hd.
  destruct (control_matches_reachable fuel acts a Hacts Hrun)
    as (_ & Hknown & _ & Hbutton).
  assert (Hnone : close_button (_shadowRoot a) = None) by by apply Hbutton.
  split; [exact Hknown|]. split; [exact Hnone|].
  unfold click_close, keydown_close. rewrite Hnone. by repeat split.
Qed.

Lemma no_close_control_unless_dismissible_witness :
  let a := with_now 100 constructor in
  tree_known (_shadowRoot a) = true ∧
  close_button (_shadowRoot a) = None ∧
  click_close a = a ∧
  (∀ key, keydown_close key a = a) ∧
  alert_dismissing (_shadowRoot (dismiss a)) = true ∧
  timers (dismiss a) = (timers a ++ [now a + dismiss_delay])%list.
Proof.
  refine (no_close_control_unless_dismissible
            3 [Connect; Advance 100] (with_now 100 constructor) _ _ _).
  - vm_compute. reflexivity.
  - repeat constructor.
  - reflexivity.
Defined.

End alert_close_control.

(** * Further properties of the components *)

(** ** The badge over a run of reactions *)
Section badge_runs.

Import Badge.

Lemma js_or_not_empty (value : option string) (fallback : string) :
  fallback ≠ "" → js_or value fallback ≠ "".
Proof.
  intros Hf. destruct value as [s|]; [|done].
  unfold js_or. by case_decide.
Qed.

Lemma badge_reaction_keeps_class (name : string) (old new : option string)
    (b : FrmwrkBadge) :
  badge_className b = "badge " +:+ _variant b ∧ _variant b ≠ "" →
  let b' := attributeChangedCallback name old new b in
  badge_className b' = "badge " +:+ _variant b' ∧ _variant b' ≠ "".
Proof.
  intros Hb. unfold attributeChangedCallback.
  destruct (bool_decide (name = "variant") && bool_decide (old ≠ new));
    [|exact Hb].
  split; [reflexivity|]. by apply js_or_not_empty.
Qed.

(** X1: whatever reactions a badge receives after its construction, the
    class of its span is [badge] followed by the current variant, and
    the variant is never the empty string. *)
Theorem badge_class_follows_variant
    (l : list (string * option string * option string)) :
  let b := reactions l constructor in
  badge_className b = "badge " +:+ _variant b ∧ _variant b ≠ "".
Proof.
  cbv zeta. unfold reactions.
  assert (Hinit : badge_className constructor = "badge " +:+ _variant constructor
                  ∧ _variant constructor ≠ "") by done.
  revert Hinit. generalize constructor as b.
  induction l as [|r l IH]; intros b Hb; [exact Hb|].
  cbn [foldl]. apply IH. by apply badge_reaction_keeps_class.
Qed.

End badge_runs.

(** ** The position of the theme toggle *)
Section toggle_position.

Import TogglePosition.

(** The names of the four corners, as the table has them. *)
Lemma corner_names :
  positions.*1 = ["top-left"; "top-right"; "bottom-left"; "bottom-right"].
Proof. reflexivity. Qed.

Lemma chosen_corners :
  chosen "top-left"
  = [("top", space_lg); ("left", space_lg);
     ("right", "auto"); ("bottom", "auto")] ∧
  chosen "top-right"
  = [("top", space_lg); ("right", space_lg);
     ("left", "auto"); ("bottom", "auto")] ∧
  chosen "bottom-left"
  = [("bottom", space_lg); ("left", space_lg);
     ("top", "auto"); ("right", "auto")] ∧
  chosen "bottom-right"
  = [("bottom", space_lg); ("right", space_lg);
     ("top", "auto"); ("left", "auto")].
Proof. repeat split; reflexivity. Qed.

Lemma corner_sides_values :
  corner_sides "top-left"
  = [Some space_lg; Some "auto"; Some "auto"; Some space_lg] ∧
  corner_sides "top-right"
  = [Some space_lg; Some space_lg; Some "auto"; Some "auto"] ∧
  corner_sides "bottom-left"
  = [Some "auto"; Some "auto"; Some space_lg; Some space_lg] ∧
  corner_sides "bottom-right"
  = [Some "auto"; Some space_lg; Some space_lg; Some "auto"].
Proof. vm_compute. repeat split; reflexivity. Qed.

Ltac corner_case Hchosen Hsides :=
  unfold _updatePosition, sides; cbn [_position style];
  rewrite Hchosen, ?Hsides; cbn [foldl fst snd];
  repeat (rewrite lookup_insert_eq || rewrite lookup_insert_ne by done).

(** Writing the entries of a corner overwrites the four sides, whatever
    they were, and nothing else. *)
Lemma corner_overwrites_sides (name : string) (st : gmap string string) :
  name ∈ positions.*1 →
  let h := _updatePosition {| _position := name; style := st |} in
  sides h = corner_sides name ∧
  ∀ k, k ∉ ["top"; "right"; "bottom"; "left"] → style h !! k = st !! k.
Proof.
  destruct chosen_corners as (C1 & C2 & C3 & C4).
  destruct corner_sides_values as (S1 & S2 & S3 & S4).
  rewrite corner_names, !elem_of_cons, elem_of_nil.
  intros [->|[->|[->|[->|[]]]]]; cbv zeta.
  - split; [by corner_case C1 S1|].
    intros k; rewrite !not_elem_of_cons; intros (?&?&?&?&_).
    by corner_case C1 S1.
  - split; [by corner_case C2 S2|].
    intros k; rewrite !not_elem_of_cons; intros (?&?&?&?&_).
    by corner_case C2 S2.
  - split; [by corner_case C3 S3|].
    intros k; rewrite !not_elem_of_cons; intros (?&?&?&?&_).
    by corner_case C3 S3.
  - split; [by corner_case C4 S4|].
    intros k; rewrite !not_elem_of_cons; intros (?&?&?&?&_).
    by corner_case C4 S4.
Qed.

Lemma own_property_None (name : string)
    (obj : list (string * list (string * string))) :
  name ∉ obj.*1 → own_property name obj = None.
Proof.
  induction obj as [|[key value] obj IH]; [done|].
  cbn [fmap list_fmap fst]. rewrite not_elem_of_cons. intros [Hne Hrest].
  cbn [own_property]. rewrite decide_False by done. by apply IH.
Qed.

Lemma chosen_inherited (name : string) :
  name ∈ Object_prototype → chosen name = [].
Proof.
  unfold Object_prototype. rewrite !elem_of_cons, elem_of_nil.
  intros H. repeat (destruct H as [->|H]; [reflexivity|]). done.
Qed.

Lemma chosen_fallback (name : string) :
  name ∉ positions.*1 → name ∉ Object_prototype →
  chosen name = chosen "top-right".
Proof.
  intros Hc Hp. unfold chosen at 1.
  rewrite own_property_None by done.
  by rewrite bool_decide_eq_false_2 by done.
Qed.

Lemma position_reaction (old new : option string) (h : Host) :
  old ≠ new →
  attributeChangedCallback "position" old new h
  = _updatePosition
      {| _position := js_or new "top-right"; style := style h |}.
Proof.
  intros Hne. unfold attributeChangedCallback.
  rewrite bool_decide_eq_true_2 by done.
  by rewrite bool_decide_eq_true_2 by done.
Qed.

(** X2: when the [position] attribute changes to the name of a corner
    (or is removed or emptied, which stands for [top-right]), the four
    sides of the inline style are those of that corner whatever they
    were before, and no other style property is touched. *)
Theorem position_corner_overwrites_sides
    (old new : option string) (h : Host) :
  old ≠ new →
  js_or new "top-right" ∈ positions.*1 →
  let h' := attributeChangedCallback "position" old new h in
  _position h' = js_or new "top-right" ∧
  sides h' = corner_sides (js_or new "top-right") ∧
  ∀ k, k ∉ ["top"; "right"; "bottom"; "left"] →
       style h' !! k = style h !! k.
Proof.
  intros Hne Hcorner. cbv zeta. rewrite position_reaction by done.
  split; [reflexivity|].
  by apply (corner_overwrites_sides (js_or new "top-right") (style h)).
Qed.

Lemma position_corner_overwrites_sides_witness :
  let h' := attributeChangedCallback "position" (Some "top-left")
              (Some "bottom-left") (constructor ∅) in
  _position h' = "bottom-left" ∧
  sides h' = corner_sides "bottom-left" ∧
  ∀ k, k ∉ ["top"; "right"; "bottom"; "left"] →
       style h' !! k = style (constructor ∅) !! k.
Proof.
  refine (position_corner_overwrites_sides
            (Some "top-left") (Some "bottom-left") (constructor ∅) _ _).
  - discriminate.
  - rewrite corner_names. change (js_or (Some "bottom-left") "top-right")
      with "bottom-left". listed.
Defined.

(** X3: a [position] that is neither a corner nor a property inherited
    from [Object.prototype] is kept in [_position] as written, and the
    host gets the sides of [top-right]. *)
Theorem position_unrecognized_is_top_right
    (old new : option string) (h : Host) :
  old ≠ new →
  js_or new "top-right" ∉ positions.*1 →
  js_or new "top-right" ∉ Object_prototype →
  let h' := attributeChangedCallback "position" old new h in
  _position h' = js_or new "top-right" ∧
  sides h' = corner_sides "top-right" ∧
  ∀ k, k ∉ ["top"; "right"; "bottom"; "left"] →
       style h' !! k = style h !! k.
Proof.
  intros Hne Hc Hp. cbv zeta. rewrite position_reaction by done.
  split; [reflexivity|].
  assert (Hcorner : "top-right" ∈ positions.*1)
    by (rewrite corner_names; listed).
  pose proof (corner_overwrites_sides "top-right" (style h) Hcorner) as Htr.
  unfold _updatePosition, sides in *. cbn [_position style] in *.
  by rewrite chosen_fallback.
Qed.

Lemma position_unrecognized_is_top_right_witness :
  let h' := attributeChangedCallback "position" (Some "bottom-left")
              (Some "center") (constructor ∅) in
  _position h' = "center" ∧
  sides h' = corner_sides "top-right" ∧
  ∀ k, k ∉ ["top"; "right"; "bottom"; "left"] →
       style h' !! k = style (constructor ∅) !! k.
Proof.
  refine (position_unrecognized_is_top_right
            (Some "bottom-left") (Some "center") (constructor ∅) _ _ _).
  - discriminate.
  - change (js_or (Some "center") "top-right") with "center".
    rewrite corner_names. not_listed.
  - change (js_or (Some "center") "top-right") with "center".
    unfold Object_prototype. not_listed.
Defined.

(** X4: a [position] that names a property every object inherits
    ([constructor], [toString], ...) does not fall back: the lookup in
    the table finds the inherited value, which has no keys, and the
    inline style stays as it was. *)
Theorem position_inherited_name_keeps_style
    (old new : option string) (h : Host) :
  old ≠ new →
  js_or new "top-right" ∈ Object_prototype →
  let h' := attributeChangedCallback "position" old new h in
  _position h' = js_or new "top-right" ∧ style h' = style h.
Proof.
  intros Hne Hp. cbv zeta. rewrite position_reaction by done.
  split; [reflexivity|].
  unfold _updatePosition. cbn [_position style].
  by rewrite chosen_inherited.
Qed.

Lemma position_inherited_name_keeps_style_witness :
  let h := attributeChangedCallback "position" None (Some "bottom-left")
             (constructor ∅) in
  let h' := attributeChangedCallback "position" (Some "bottom-left")
              (Some "constructor") h in
  _position h' = "constructor" ∧ style h' = style h.
Proof.
  refine (position_inherited_name_keeps_style
            (Some "bottom-left") (Some "constructor")
            (attributeChangedCallback "position" None (Some "bottom-left")
               (constructor ∅)) _ _).
  - discriminate.
  - change (js_or (Some "constructor") "top-right") with "constructor".
    unfold Object_prototype. listed.
Defined.

(** X5: from its construction on and through any reactions, the host
    is anchored to one of the four corners (the four sides of its inline
    style are those of one entry of the table), and every other property
    of the inline style is the one the element came with. *)
Theorem host_is_anchored_to_a_corner
    (inline : gmap string string)
    (l : list (string * option string * option string)) :
  let h := reactions l (constructor inline) in
  (∃ name, name ∈ positions.*1 ∧ sides h = corner_sides name) ∧
  ∀ k, k ∉ ["top"; "right"; "bottom"; "left"] → style h !! k = inline !! k.
Proof.
  cbv zeta. unfold reactions.
  assert (Hinit :
    (∃ name, name ∈ positions.*1 ∧ sides (constructor inline) = corner_sides name)
    ∧ ∀ k, k ∉ ["top"; "right"; "bottom"; "left"] →
           style (constructor inline) !! k = inline !! k).
  { assert (Hcorner : "top-right" ∈ positions.*1)
      by (rewrite corner_names; listed).
    destruct (corner_overwrites_sides "top-right" inline Hcorner) as [Hs Hk].
    split; [by exists "top-right"|exact Hk]. }
  revert Hinit. generalize (constructor inline) as h.
  induction l as [|[[name old] new] l IH]; intros h Hh; [exact Hh|].
  cbn [foldl fst snd]. apply IH. clear IH.
  destruct Hh as [Hanchor Hrest].
  unfold attributeChangedCallback.
  destruct (bool_decide (name = "position") && bool_decide (old ≠ new));
    [|by split].
  set (p := js_or new "top-right").
  destruct (decide (p ∈ positions.*1)) as [Hc|Hc].
  - destruct (corner_overwrites_sides p (style h) Hc) as [Hs Hk].
    split; [by exists p|]. intros k Hkk. rewrite Hk by done. by apply Hrest.
  - destruct (decide (p ∈ Object_prototype)) as [Hp|Hp].
    + unfold _updatePosition, sides in *. cbn [_position style] in *.
      rewrite chosen_inherited by done. cbn [foldl]. by split.
    + assert (Hcorner : "top-right" ∈ positions.*1)
        by (rewrite corner_names; listed).
      destruct (corner_overwrites_sides "top-right" (style h) Hcorner)
        as [Hs Hk].
      unfold _updatePosition, sides in *. cbn [_position style] in *.
      rewrite chosen_fallback by done.
      split; [by exists "top-right"|].
      intros k Hkk. rewrite Hk by done. by apply Hrest.
Qed.

Lemma host_is_anchored_to_a_corner_witness :
  let h := reactions [("position", None, Some "bottom-left");
                      ("position", Some "bottom-left", Some "toString")]
             (constructor {["color" := "red"]}) in
  style h !! "color" = Some "red".
Proof.
  refine (proj2 (host_is_anchored_to_a_corner {["color" := "red"]}
                   [("position", None, Some "bottom-left");
                    ("position", Some "bottom-left", Some "toString")])
            "color" _).
  not_listed.
Defined.

End toggle_position.

(** ** The theme toggle over several activations and visits *)
Section theme_runs.

Import ThemeToggle.

Lemma iter_toggle_parity (n : nat) (p : Page) :
  "theme-dark" ∈ html_classList (Nat.iter n _toggleTheme p)
  ↔ (if Nat.even n then "theme-dark" ∈ html_classList p
     else "theme-dark" ∉ html_classList p).
Proof.
  induction n as [|n IH]; [done|].
  cbn [Nat.iter nat_rect]. rewrite toggle_flag_flips, IH.
  rewrite Nat.even_succ, <- Nat.negb_even.
  destruct (Nat.even n); cbn [negb]; [tauto|].
  destruct (decide ("theme-dark" ∈ html_classList p)); tauto.
Qed.

(** X6: one activation of a toggle runs [_toggleTheme] once for each
    listener on its button, so it flips the document flag exactly when
    the number of listeners is odd. *)
Theorem click_flips_by_parity (t : FrmwrkThemeToggle) (p : Page) :
  "theme-dark" ∈ html_classList (click t p)
  ↔ (if Nat.even (button_click_listeners t)
     then "theme-dark" ∈ html_classList p
     else "theme-dark" ∉ html_classList p).
Proof. apply iter_toggle_parity. Qed.

Lemma toggle_dispatches (p : Page) :
  dispatched (_toggleTheme p)
  = (dispatched p ++ [theme_changed (theme_of (_toggleTheme p))])%list ∧
  getItem "theme" (_toggleTheme p) = Some (theme_of (_toggleTheme p)).
Proof.
  unfold getItem. rewrite toggle_stores_theme, lookup_insert_eq.
  split; [|done].
  unfold theme_of, classList_contains.
  destruct (decide ("theme-dark" ∈ html_classList p)) as [Hin|Hin].
  - rewrite bool_decide_eq_false_2 by (rewrite toggle_flag_flips; tauto).
    by rewrite toggle_from_dark.
  - rewrite bool_decide_eq_true_2 by (by rewrite toggle_flag_flips).
    by rewrite toggle_from_light.
Qed.

(** X7: a toggle that was attached, detached and attached again has two
    listeners on its button, since [disconnectedCallback] removes none:
    one activation toggles twice, the document flag is what it was, two
    [theme-changed] events are dispatched (the opposite theme, then the
    original one) and the storage holds the original theme. *)
Theorem reattached_toggle_toggles_twice (p0 p1 p : Page) :
  let t1 := (connectedCallback constructor p0).1 in
  let t2 := (connectedCallback (disconnectedCallback t1) p1).1 in
  button_click_listeners t2 = 2 ∧
  html_classList (click t2 p) = html_classList p ∧
  getItem "theme" (click t2 p) = Some (theme_of p) ∧
  dispatched (click t2 p)
  = (dispatched p ++
       [theme_changed (theme_of (_toggleTheme p));
        theme_changed (theme_of p)])%list.
Proof.
  cbv zeta. split; [reflexivity|].
  change (click _ p) with (_toggleTheme (_toggleTheme p)).
  split; [apply toggle_twice_classList|].
  destruct (toggle_dispatches (_toggleTheme p)) as [Hd Hs].
  rewrite Hs, Hd, theme_of_toggle_twice. split; [done|].
  destruct (toggle_dispatches p) as [-> _]. by rewrite <- app_assoc.
Qed.

Lemma toggle_frame (p : Page) :
  (∀ key, key ≠ "theme" →
     getItem key (_toggleTheme p) = getItem key p) ∧
  (∀ token, token ≠ "theme-dark" →
     token ∈ html_classList (_toggleTheme p) ↔ token ∈ html_classList p).
Proof.
  split.
  - intros key Hkey. unfold getItem.
    rewrite toggle_stores_theme. by rewrite lookup_insert_ne.
  - intros token Htoken.
    destruct (decide ("theme-dark" ∈ html_classList p)) as [Hin|Hin].
    + rewrite toggle_from_dark by done.
      cbn [html_classList dispatchEvent setItem classList_remove].
      rewrite elem_of_difference, elem_of_singleton. tauto.
    + rewrite toggle_from_light by done.
      cbn [html_classList dispatchEvent setItem classList_add].
      rewrite elem_of_union, elem_of_singleton. tauto.
Qed.

(** X8: activations touch nothing but the theme: whatever the number of
    listeners, every other key of the storage keeps its value and every
    other class of the root element stays or stays away. *)
Theorem click_touches_only_the_theme (t : FrmwrkThemeToggle) (p : Page) :
  (∀ key, key ≠ "theme" → getItem key (click t p) = getItem key p) ∧
  (∀ token, token ≠ "theme-dark" →
     token ∈ html_classList (click t p) ↔ token ∈ html_classList p).
Proof.
  unfold click. induction (button_click_listeners t) as [|n [IHk IHt]];
    [done|].
  cbn [Nat.iter nat_rect].
  destruct (toggle_frame (Nat.iter n _toggleTheme p)) as [Hk Ht].
  split.
  - intros key Hkey. by rewrite Hk, IHk.
  - intros token Htoken. by rewrite Ht, IHt.
Qed.

Lemma click_touches_only_the_theme_witness :
  let p := setItem "lang" "en" first_visit in
  getItem "lang" (click (load_and_attach p).1 p) = getItem "lang" p.
Proof.
  refine (proj1 (click_touches_only_the_theme
                   (load_and_attach (setItem "lang" "en" first_visit)).1
                   (setItem "lang" "en" first_visit)) "lang" _).
  discriminate.
Defined.

Lemma click_mirrors (t : FrmwrkThemeToggle) (p : Page) :
  (0 < button_click_listeners t)%nat → mirrors (click t p).
Proof.
  unfold click. destruct (button_click_listeners t) as [|n]; [lia|].
  intros _. cbn [Nat.iter nat_rect]. apply toggle_mirrors.
Qed.

(** X9: what a reload restores: after an activation of an attached
    toggle, a new document that loads the script with the storage left
    behind has the dark flag exactly when its own markup carries the
    class or the old document had the flag; the load does not write the
    storage. On a page whose markup does not carry the class the flag of
    the old document is therefore restored, and on a page whose markup
    carries it the new document is dark whatever was chosen. *)
Theorem reload_restores_flag
    (t : FrmwrkThemeToggle) (p : Page) (markup : gset string) :
  (0 < button_click_listeners t)%nat →
  ("theme-dark" ∈ html_classList (reload markup (click t p))
   ↔ "theme-dark" ∈ markup ∨ "theme-dark" ∈ html_classList (click t p)) ∧
  ("theme-dark" ∉ markup →
   ("theme-dark" ∈ html_classList (reload markup (click t p))
    ↔ "theme-dark" ∈ html_classList (click t p))) ∧
  localStorage (reload markup (click t p)) = localStorage (click t p).
Proof.
  intros Hattached.
  destruct (click_mirrors t p Hattached) as [_ Hflag].
  generalize dependent (click t p). intros q Hflag.
  unfold reload, auto_initialize, getItem in *.
  cbn [localStorage].
  destruct (decide (localStorage q !! "theme" = Some "dark")) as [Hd|Hd].
  - cbn [html_classList classList_add localStorage].
    rewrite elem_of_union, elem_of_singleton. split; [tauto|].
    split; [tauto|done].
  - cbn [html_classList localStorage]. split; [tauto|]. split; [tauto|done].
Qed.

Lemma reload_restores_flag_witness :
  let t := (load_and_attach first_visit).1 in
  let markup : gset string := {["no-js"]} in
  ("theme-dark" ∈ html_classList (reload markup (click t first_visit))
   ↔ "theme-dark" ∈ markup
     ∨ "theme-dark" ∈ html_classList (click t first_visit)) ∧
  ("theme-dark" ∉ markup →
   ("theme-dark" ∈ html_classList (reload markup (click t first_visit))
    ↔ "theme-dark" ∈ html_classList (click t first_visit))) ∧
  localStorage (reload markup (click t first_visit))
  = localStorage (click t first_visit).
Proof.
  refine (reload_restores_flag
            (load_and_attach first_visit).1 first_visit {["no-js"]} _).
  cbn. lia.
Defined.

(** X10: loading never clears the flag and never writes the storage: on
    a document that carries the dark class, whatever is stored (nothing,
    ["light"], anything else), the script and the attachment of a toggle
    leave the class and the storage as they are, and the first
    activation goes by the class: it clears it and stores ["light"]. *)
Theorem toggle_goes_by_the_document_flag (p : Page) :
  "theme-dark" ∈ html_classList p →
  let '(t, p1) := load_and_attach p in
  ("theme-dark" ∈ html_classList p1) ∧
  localStorage p1 = localStorage p ∧
  dispatched p1 = dispatched p ∧
  ("theme-dark" ∉ html_classList (click t p1)) ∧
  getItem "theme" (click t p1) = Some "light".
Proof.
  intros Hdark. unfold load_and_attach. cbn [connectedCallback].
  change (click _ ?q) with (_toggleTheme q).
  set (p1 := _loadSavedTheme (auto_initialize p)).
  assert (Hp1 : "theme-dark" ∈ html_classList p1
                ∧ localStorage p1 = localStorage p
                ∧ dispatched p1 = dispatched p).
  { subst p1. unfold _loadSavedTheme, auto_initialize, _updateIcon, getItem.
    repeat case_decide;
      cbn [html_classList localStorage dispatched classList_add];
      repeat split; try done;
      rewrite ?elem_of_union; tauto. }
  destruct Hp1 as (Hin & Hst & Hev).
  repeat (split; [done|]).
  rewrite toggle_flag_flips. split; [tauto|].
  rewrite toggle_from_dark by done. unfold getItem.
  cbn [localStorage dispatchEvent setItem]. apply lookup_insert_eq.
Qed.

Lemma toggle_goes_by_the_document_flag_witness :
  let p := classList_add "theme-dark" (setItem "theme" "light" first_visit) in
  let '(t, p1) := load_and_attach p in
  ("theme-dark" ∈ html_classList p1) ∧
  localStorage p1 = localStorage p ∧
  dispatched p1 = dispatched p ∧
  ("theme-dark" ∉ html_classList (click t p1)) ∧
  getItem "theme" (click t p1) = Some "light".
Proof.
  refine (toggle_goes_by_the_document_flag
            (classList_add "theme-dark"
               (setItem "theme" "light" first_visit)) _).
  cbn [html_classList classList_add]. apply elem_of_union_l.
  by apply elem_of_singleton.
Defined.

(** X11: every run of [_toggleTheme] dispatches exactly one
    [theme-changed] event, and its payload is the value just stored,
    which names the state of the document flag. *)
Theorem toggle_event_matches_storage (p : Page) :
  ∃ theme,
    dispatched (_toggleTheme p)
    = (dispatched p ++
         [{| ev_type := "theme-changed"; ev_detail := [("theme", theme)];
             ev_bubbles := true; ev_composed := true |}])%list ∧
    getItem "theme" (_toggleTheme p) = Some theme ∧
    (theme = "dark" ↔ "theme-dark" ∈ html_classList (_toggleTheme p)) ∧
    (theme = "light" ↔ "theme-dark" ∉ html_classList (_toggleTheme p)).
Proof.
  exists (theme_of (_toggleTheme p)).
  destruct (toggle_dispatches p) as [Hd Hs].
  split; [exact Hd|]. split; [exact Hs|].
  unfold theme_of, classList_contains.
  case_bool_decide; split; split; try done; tauto.
Qed.

End theme_runs.

(** ** The alert: every write of the [open] attribute *)
Section alert_open_attribute.

Import Alert.

Lemma open_flag_kept (v : string) :
  v ≠ "false" →
  bool_decide (Some v ≠ Some "false") && bool_decide (Some v ≠ None) = true.
Proof.
  intros Hv. apply andb_true_iff.
  split; apply bool_decide_eq_true_2; congruence.
Qed.

Lemma setAttribute_open_same (fuel : nat) (v : string) (a : FrmwrkAlert) :
  attributes a !! "open" = Some v →
  setAttribute (S fuel) "open" v a = Some a.
Proof.
  intros Hv. unfold setAttribute, setAttribute_with, write_attribute. lower_names.
  rewrite observed_open, Hv, reaction_unchanged. f_equal.
  destruct a; unfold with_attributes; cbn in *. by rewrite insert_id.
Qed.

Lemma setAttribute_open_other (fuel : nat) (v : string) (a : FrmwrkAlert) :
  attributes a !! "open" ≠ Some v →
  setAttribute (S (S (S (S fuel)))) "open" v a = Some (closed_of a).
Proof.
  intros Hv. unfold setAttribute, setAttribute_with, write_attribute. lower_names.
  rewrite observed_open, reaction_open by done.
  unfold _updateVisibility, _updateVisibility_with.
  destruct (decide (v = "false")) as [->|Hfalse].
  - rewrite open_flag_cleared by (by right). cbn [_open with_open negb].
    change (setAttribute_with (attributeChangedCallback (S (S (S fuel))))
              "open" "false" ?x)
      with (setAttribute (S (S (S fuel))) "open" "false" x).
    rewrite setAttribute_open_false by done. f_equal.
    unfold closed_of, with_attributes, with_open; cbn.
    by rewrite insert_insert_eq.
  - rewrite open_flag_kept by done. cbn [_open with_open negb].
    unfold removeAttribute_with, drop_attribute. lower_names.
    cbn [attributes with_open with_attributes].
    rewrite lookup_insert_eq, observed_open.
    rewrite open_reaction_closes by (done || by left). f_equal.
    unfold closed_of, with_attributes, with_open; cbn.
    by rewrite insert_delete_eq, insert_insert_eq.
Qed.

(** X12: every write of the [open] attribute that changes its value
    closes the alert, whatever the value: [open="true"] or [open=""] on
    an open alert clear the flag and leave [open="false"] on the host,
    like [open="false"] does; nothing else of the alert changes. *)
Theorem writing_open_closes (fuel : nat) (v : string) (a : FrmwrkAlert) :
  (4 ≤ fuel)%nat →
  attributes a !! "open" ≠ Some v →
  ∃ a', setAttribute fuel "open" v a = Some a' ∧
        _open a' = false ∧ attributes a' !! "open" = Some "false" ∧
        a' = closed_of a.
Proof.
  intros Hfuel Hv. destruct fuel as [|[|[|[|fuel]]]]; [lia..|].
  exists (closed_of a). split; [by apply setAttribute_open_other|].
  destruct (closed_of_is_closed a) as [Ho Ha]. by repeat split.
Qed.

Lemma writing_open_closes_witness :
  ∃ a', setAttribute 4 "open" "true" constructor = Some a' ∧
        _open a' = false ∧ attributes a' !! "open" = Some "false" ∧
        a' = closed_of constructor.
Proof.
  refine (writing_open_closes 4 "true" constructor _ _).
  - lia.
  - discriminate.
Defined.

(** *** What a step does to the open state *)

Lemma reaction_elsewhere (fuel : nat) (name : string)
    (old new : option string) (a : FrmwrkAlert) :
  name ≠ "open" →
  ∃ a', attributeChangedCallback (S fuel) name old new a = Some a' ∧
        _open a' = _open a ∧ attributes a' = attributes a.
Proof.
  intros Hname. cbn [attributeChangedCallback].
  destruct (decide (old = new)); [by eexists|].
  destruct (decide (name = "variant")); [by eexists|].
  destruct (decide (name = "dismissible")).
  { eexists. split; [reflexivity|].
    destruct (updateDismissible_frame
                (with_dismissible (bool_decide (new ≠ None)) a))
      as (_ & _ & Ho & Ha & _).
    by rewrite Ho, Ha. }
  destruct (decide (name = "open")); [done|by eexists].
Qed.

Lemma iter_dismiss_open_state (n : nat) (a : FrmwrkAlert) :
  _open (Nat.iter n _dismiss a) = _open a ∧
  attributes (Nat.iter n _dismiss a) = attributes a.
Proof.
  induction n as [|n [IH1 IH2]]; [done|].
  cbn [Nat.iter nat_rect]. by rewrite <- IH1, <- IH2.
Qed.

Lemma iter_keydown_open_state (n : nat) (key : string) (a : FrmwrkAlert) :
  _open (Nat.iter n (keydown_handler key) a) = _open a ∧
  attributes (Nat.iter n (keydown_handler key) a) = attributes a.
Proof.
  induction n as [|n [IH1 IH2]]; [done|].
  cbn [Nat.iter nat_rect]. rewrite <- IH1, <- IH2.
  unfold keydown_handler. by destruct (_ || _).
Qed.

Lemma fire_open_state (fuel n : nat) (a : FrmwrkAlert) :
  ∃ a', fire (S (S fuel)) n a = Some a' ∧
        ((n = 0 ∧ a' = a) ∨ is_closed a').
Proof.
  revert a. induction n as [|n IH]; intros a; [by eexists; split; [|left]|].
  cbn [fire]. rewrite dismiss_timeout_closes. cbn [mbind option_bind].
  destruct (IH (dispatchEvent (alert_dismissed (_variant a)) (closed_of a)))
    as (a' & -> & [[_ ->]|Hc]).
  - eexists. split; [done|]. right.
    apply dispatch_closed, closed_of_is_closed.
  - eexists. split; [done|]. by right.
Qed.

(** After a step the flag and the attribute are as before, or the alert
    is closed, or [show] found an alert without the attribute. *)
Lemma step_open_state (fuel : nat) (act : action) (a : FrmwrkAlert) :
  ∃ a', step (S (S (S (S fuel)))) act a = Some a' ∧
        ((_open a' = _open a ∧
          attributes a' !! "open" = attributes a !! "open") ∨
         is_closed a' ∨
         (attributes a !! "open" = None ∧
          _open a' = true ∧ attributes a' !! "open" = None)).
Proof.
  destruct act as [name value|name| | | |key| | |ms]; cbn [step].
  - change (setAttribute ?f name value a)
      with (write_attribute (attributeChangedCallback f)
              (ascii_lowercase name) value a).
    generalize (ascii_lowercase name). clear name. intros name.
    destruct (decide (name = "open")) as [->|Hname].
    + change (write_attribute (attributeChangedCallback ?f) "open" value a)
        with (setAttribute f "open" value a).
      destruct (decide (attributes a !! "open" = Some value)) as [Hv|Hv].
      * rewrite setAttribute_open_same by done. eexists. split; [done|].
        by left.
      * rewrite setAttribute_open_other by done. eexists. split; [done|].
        right; left. apply closed_of_is_closed.
    + unfold write_attribute. case_bool_decide.
      * destruct (reaction_elsewhere (S (S (S fuel))) name
                    (attributes a !! name) (Some value)
                    (with_attributes (<[name:=value]> (attributes a)) a)
                    Hname) as (a' & -> & Ho & Ha).
        eexists. split; [done|]. left. rewrite Ho, Ha. cbn.
        by rewrite lookup_insert_ne.
      * eexists. split; [done|]. left. cbn. by rewrite lookup_insert_ne.
  - change (removeAttribute ?f name a)
      with (drop_attribute (attributeChangedCallback f)
              (ascii_lowercase name) a).
    generalize (ascii_lowercase name). clear name. intros name.
    destruct (decide (name = "open")) as [->|Hname].
    + change (drop_attribute (attributeChangedCallback ?f) "open" a)
        with (removeAttribute f "open" a).
      destruct (attributes a !! "open") as [v|] eqn:Hv.
      * rewrite (removeAttribute_open (S fuel) v) by done.
        eexists. split; [done|]. right; left. apply closed_of_is_closed.
      * unfold removeAttribute, removeAttribute_with, drop_attribute.
        lower_names. rewrite Hv.
        eexists. split; [done|]. by left.
    + unfold drop_attribute.
      destruct (attributes a !! _) as [v|] eqn:Hv;
        [|by eexists; split; [|left]].
      case_bool_decide.
      * destruct (reaction_elsewhere (S (S (S fuel))) name (Some v) None
                    (with_attributes (delete name (attributes a)) a)
                    Hname) as (a' & -> & Ho & Ha).
        eexists. split; [done|]. left. rewrite Ho, Ha. cbn.
        by rewrite lookup_delete_ne.
      * eexists. split; [done|]. left. cbn. by rewrite lookup_delete_ne.
  - eexists. split; [done|]. left. unfold connectedCallback.
    by destruct (close_button (_shadowRoot a)).
  - eexists. split; [done|]. by left.
  - eexists. split; [done|]. left. unfold click_close.
    destruct (close_button (_shadowRoot a)) as [b|]; [|done].
    destruct (iter_dismiss_open_state (click_listeners b) a) as [-> ->].
    done.
  - eexists. split; [done|]. left. unfold keydown_close.
    destruct (close_button (_shadowRoot a)) as [b|]; [|done].
    destruct (iter_keydown_open_state (keydown_listeners b) key a)
      as [-> ->].
    done.
  - unfold show.
    destruct (attributes a !! "open") as [v|] eqn:Hv.
    + rewrite (removeAttribute_open (S fuel) v (with_open true a)) by done.
      eexists. split; [done|]. right; left. apply closed_of_is_closed.
    + unfold removeAttribute, removeAttribute_with, drop_attribute. lower_names.
      cbn [attributes with_open]. rewrite Hv.
      eexists. split; [done|]. right; right. by repeat split.
  - eexists. split; [done|]. by left.
  - unfold advance.
    match goal with
    | |- context [fire _ ?n ?x] =>
        destruct (fire_open_state (S (S fuel)) n x) as (a' & -> & Hcase)
    end.
    eexists. split; [done|].
    destruct Hcase as [[_ ->]|Hc]; [by left|by right; left].
Qed.

(** X13: a closed alert stays closed: no sequence of attribute writes
    and removals, attachments, clicks, keys, [show()], [dismiss()] and
    elapsed time brings back the flag or removes [open="false"]. *)
Theorem closed_alert_stays_closed
    (fuel : nat) (acts : list action) (a : FrmwrkAlert) :
  (4 ≤ fuel)%nat →
  is_closed a →
  ∃ a', run fuel acts a = Some a' ∧ is_closed a'.
Proof.
  intros Hfuel. destruct fuel as [|[|[|[|fuel]]]]; [lia..|]. clear Hfuel.
  revert a. induction acts as [|act acts IH]; intros a Hclosed;
    [by exists a|].
  cbn [run].
  destruct (step_open_state fuel act a) as (a1 & -> & Hcase).
  cbn [mbind option_bind]. apply IH.
  destruct Hclosed as [Ho Ha].
  destruct Hcase as [[Ho1 Ha1]|[Hc|[Hnone _]]].
  - split; congruence.
  - exact Hc.
  - congruence.
Qed.

Lemma closed_alert_stays_closed_witness :
  ∃ a', run 4 [Show; SetAttribute "open" "true"; RemoveAttribute "open";
               Dismiss; Advance 300; Show] (closed_of constructor) = Some a' ∧
        is_closed a'.
Proof.
  refine (closed_alert_stays_closed 4 _ (closed_of constructor) _ _).
  - lia.
  - apply closed_of_is_closed.
Defined.

(** X14: the flag and the host attribute never disagree: after any
    sequence of actions on a constructed alert, either the flag is set
    and the host has no [open] attribute, or the flag is cleared and the
    host has [open="false"]. *)
Theorem flag_and_attribute_agree
    (fuel : nat) (acts : list action) :
  (4 ≤ fuel)%nat →
  ∃ a, run fuel acts constructor = Some a ∧ consistent a.
Proof.
  intros Hfuel. destruct fuel as [|[|[|[|fuel]]]]; [lia..|]. clear Hfuel.
  assert (Hinit : consistent constructor) by (by left).
  revert Hinit. generalize constructor as a.
  induction acts as [|act acts IH]; intros a Hcons; [by exists a|].
  cbn [run].
  destruct (step_open_state fuel act a) as (a1 & -> & Hcase).
  cbn [mbind option_bind]. apply IH.
  destruct Hcase as [[Ho1 Ha1]|[Hc|(_ & Ho1 & Ha1)]].
  - destruct Hcons as [[Ho Ha]|[Ho Ha]]; [left|right]; split; congruence.
  - by right.
  - by left.
Qed.

Lemma flag_and_attribute_agree_witness :
  ∃ a, run 4 [SetAttribute "open" ""; Show] constructor = Some a ∧
       consistent a.
Proof.
  refine (flag_and_attribute_agree 4 _ _). lia.
Defined.

End alert_open_attribute.

(** ** The alert over any run of actions *)
Section alert_runs.

Import Alert.

(** *** Properties kept by every action *)

Section kept.

Variable P : FrmwrkAlert → Prop.
Hypothesis K_open : ∀ o a, P a → P (with_open o a).
Hypothesis K_attributes : ∀ m a, P a → P (with_attributes m a).
Hypothesis K_variant :
  ∀ new a, P a → P (_updateVariant (with_variant (js_or new "info") a)).
Hypothesis K_dismissible :
  ∀ d a, P a → P (_updateDismissible (with_dismissible d a)).
Hypothesis K_dispatch :
  ∀ a, P a → P (dispatchEvent (alert_dismissed (_variant a)) a).
Hypothesis K_dismiss : ∀ a, P a → P (_dismiss a).
Hypothesis K_connected : ∀ a, P a → P (connectedCallback a).
Hypothesis K_advance :
  ∀ ms a, P a →
    P (with_timers
         (filter (λ d : nat, ¬ (d ≤ now a + ms)%nat) (timers a))
         (with_now (now a + ms) a)).

Lemma reaction_keeps (fuel : nat) :
  ∀ name old new a a',
    P a → attributeChangedCallback fuel name old new a = Some a' → P a'.
Proof.
  induction fuel as [|fuel IH]; intros name old new a a' HP Hrun;
    [discriminate|].
  cbn [attributeChangedCallback] in Hrun.
  destruct (decide (old = new)); [simplify_eq; auto|].
  destruct (decide (name = "variant")); [simplify_eq; auto|].
  destruct (decide (name = "dismissible")); [simplify_eq; auto|].
  destruct (decide (name = "open")); [|simplify_eq; auto].
  unfold _updateVisibility_with, setAttribute_with, removeAttribute_with,
    write_attribute, drop_attribute in Hrun.
  rewrite ?lower_open in Hrun.
  destruct (negb _).
  - case_bool_decide; [|simplify_eq; auto].
    eapply IH; [|exact Hrun]. auto.
  - destruct (attributes _ !! "open"); [|simplify_eq; auto].
    case_bool_decide; [|simplify_eq; auto].
    eapply IH; [|exact Hrun]. auto.
Qed.

Lemma setAttribute_keeps (fuel : nat) (name value : string)
    (a a' : FrmwrkAlert) :
  P a → setAttribute fuel name value a = Some a' → P a'.
Proof.
  unfold setAttribute, setAttribute_with, write_attribute. lower_names. intros HP Hrun.
  case_bool_decide; [|simplify_eq; auto].
  eapply reaction_keeps; [|exact Hrun]. auto.
Qed.

Lemma removeAttribute_keeps (fuel : nat) (name : string)
    (a a' : FrmwrkAlert) :
  P a → removeAttribute fuel name a = Some a' → P a'.
Proof.
  unfold removeAttribute, removeAttribute_with, drop_attribute. lower_names. intros HP Hrun.
  destruct (attributes a !! _); [|simplify_eq; auto].
  case_bool_decide; [|simplify_eq; auto].
  eapply reaction_keeps; [|exact Hrun]. auto.
Qed.

Lemma fire_keeps (fuel n : nat) :
  ∀ a a', P a → fire fuel n a = Some a' → P a'.
Proof.
  induction n as [|n IH]; intros a a' HP Hrun; cbn [fire] in Hrun;
    [simplify_eq; auto|].
  unfold dismiss_timeout in Hrun.
  destruct (setAttribute fuel "open" "false" (with_open false a))
    as [a1|] eqn:Hset; [|discriminate].
  cbn [mbind option_bind] in Hrun.
  eapply IH; [|exact Hrun].
  apply K_dispatch. eapply setAttribute_keeps; [|exact Hset]. auto.
Qed.

Lemma iter_keeps (f : FrmwrkAlert → FrmwrkAlert) (n : nat) :
  (∀ a, P a → P (f a)) → ∀ a, P a → P (Nat.iter n f a).
Proof.
  intros Hf a HP. induction n as [|n IH]; cbn [Nat.iter nat_rect]; auto.
Qed.

Lemma step_keeps (fuel : nat) (act : action) (a a' : FrmwrkAlert) :
  P a → step fuel act a = Some a' → P a'.
Proof.
  intros HP Hrun. destruct act; cbn [step] in Hrun.
  - by eapply setAttribute_keeps.
  - by eapply removeAttribute_keeps.
  - simplify_eq; auto.
  - simplify_eq; auto.
  - simplify_eq. unfold click_close.
    destruct (close_button _); [|done]. by apply iter_keeps.
  - simplify_eq. unfold keydown_close.
    destruct (close_button _); [|done]. apply iter_keeps; [|done].
    intros a1 H1. unfold keydown_handler. destruct (_ || _); auto.
  - unfold show in Hrun.
    eapply removeAttribute_keeps; [|exact Hrun]. auto.
  - simplify_eq; auto.
  - unfold advance in Hrun.
    eapply fire_keeps; [|exact Hrun]. auto.
Qed.

Lemma run_keeps (fuel : nat) (acts : list action) :
  ∀ a a', P a → run fuel acts a = Some a' → P a'.
Proof.
  induction acts as [|act acts IH]; intros a a' HP Hrun; cbn [run] in Hrun;
    [simplify_eq; auto|].
  destruct (step fuel act a) as [a1|] eqn:Hstep; [|discriminate].
  cbn [mbind option_bind] in Hrun.
  eapply IH; [|exact Hrun]. by eapply step_keeps.
Qed.

End kept.

Lemma run_from_constructor (P : FrmwrkAlert → Prop) (fuel : nat)
    (acts : list action) :
  (4 ≤ fuel)%nat →
  (∀ a, run fuel acts constructor = Some a → P a) →
  ∃ a, run fuel acts constructor = Some a ∧ P a.
Proof.
  intros Hfuel HP. destruct fuel as [|[|[|[|fuel]]]]; [lia..|].
  destruct (run_total fuel acts constructor) as [a Ha]. eauto.
Qed.



(** X16: every event an alert has dispatched is an [alert-dismissed]
    event that bubbles, is composed, and carries a variant that is not
    empty. *)
Theorem alert_events_are_dismissals (fuel : nat) (acts : list action) :
  (4 ≤ fuel)%nat →
  ∃ a, run fuel acts constructor = Some a ∧
       Forall (λ e, ∃ v, v ≠ "" ∧
                 e = {| ev_type := "alert-dismissed";
                        ev_detail := [("variant", v)];
                        ev_bubbles := true; ev_composed := true |})
         (dispatched a).
Proof.
  intros Hfuel.
  destruct (run_from_constructor
              (λ a, _variant a ≠ "" ∧
                    Forall (λ e, ∃ v, v ≠ "" ∧ e = alert_dismissed v)
                      (dispatched a)) fuel acts Hfuel) as (a & Ha & _ & He);
    [|by exists a].
  intros a Hrun.
  eapply (run_keeps
            (λ a, _variant a ≠ "" ∧
                  Forall (λ e, ∃ v, v ≠ "" ∧ e = alert_dismissed v)
                    (dispatched a))); [..|exact Hrun];
    try (intros; assumption).
  - intros new a0 [_ He]. split; [|exact He]. by apply js_or_not_empty.
  - intros d a0 Ha0.
    destruct (updateDismissible_frame (with_dismissible d a0))
      as (Hv & _ & _ & _ & _ & _ & He).
    rewrite Hv, He. exact Ha0.
  - intros a0 [Hv He]. split; [exact Hv|].
    cbn [dispatched dispatchEvent]. apply Forall_app. split; [exact He|].
    constructor; [|constructor]. by exists (_variant a0).
  - intros a0 Ha0. unfold connectedCallback.
    by destruct (close_button (_shadowRoot a0)).
  - split; [done|]. constructor.
Qed.

Lemma alert_events_are_dismissals_witness :
  ∃ a, run 4 [Dismiss; SetAttribute "variant" ""; Advance 300] constructor
       = Some a ∧
       Forall (λ e, ∃ v, v ≠ "" ∧
                 e = {| ev_type := "alert-dismissed";
                        ev_detail := [("variant", v)];
                        ev_bubbles := true; ev_composed := true |})
         (dispatched a).
Proof.
  refine (alert_events_are_dismissals 4 _ _). lia.
Defined.

(** *** Timers and events *)

Lemma due_and_later (t : nat) (l : list nat) :
  (length (filter (λ d : nat, (d ≤ t)%nat) l)
   + length (filter (λ d : nat, ¬ (d ≤ t)%nat) l))%nat = length l.
Proof.
  induction l as [|d l IH]; [done|].
  destruct (decide (d ≤ t)%nat) as [Hd|Hd].
  - rewrite filter_cons_True by done.
    rewrite (filter_cons_False (λ d : nat, ¬ (d ≤ t)%nat)) by tauto.
    cbn [length]. lia.
  - rewrite filter_cons_False by done.
    rewrite (filter_cons_True (λ d : nat, ¬ (d ≤ t)%nat)) by done.
    cbn [length]. lia.
Qed.

Lemma fire_result (fuel n : nat) (a : FrmwrkAlert) :
  ∃ a', fire (S (S fuel)) n a = Some a' ∧
        dispatched a'
        = (dispatched a ++ replicate n (alert_dismissed (_variant a)))%list ∧
        timers a' = timers a ∧ now a' = now a ∧
        ((0 < n)%nat ∨ is_closed a → is_closed a').
Proof.
  revert a. induction n as [|n IH]; intros a.
  - exists a. split; [done|]. cbn [replicate]. rewrite app_nil_r.
    do 3 (split; [done|]). intros [Hpos|Hcl]; [lia|done].
  - cbn [fire]. rewrite dismiss_timeout_closes. cbn [mbind option_bind].
    destruct (IH (dispatchEvent (alert_dismissed (_variant a)) (closed_of a)))
      as (a' & -> & Hd & Ht & Hn & Hc).
    exists a'. split; [done|]. split; [|split; [done|split; [done|]]].
    + rewrite Hd. cbn [dispatched dispatchEvent closed_of with_attributes
                         with_open _variant replicate].
      by rewrite <- app_assoc.
    + intros _. apply Hc. right.
      apply dispatch_closed, closed_of_is_closed.
Qed.

Lemma advance_result (fuel ms : nat) (a : FrmwrkAlert) :
  ∃ a', advance (S (S fuel)) ms a = Some a' ∧
        now a' = (now a + ms)%nat ∧
        timers a' = filter (λ d : nat, ¬ (d ≤ now a + ms)%nat) (timers a) ∧
        dispatched a'
        = (dispatched a ++
             replicate
               (length (filter (λ d : nat, (d ≤ now a + ms)%nat) (timers a)))
               (alert_dismissed (_variant a)))%list ∧
        ((0 < length (filter (λ d : nat, (d ≤ now a + ms)%nat) (timers a)))%nat
         → is_closed a').
Proof.
  unfold advance.
  match goal with
  | |- context [fire _ ?n ?x] =>
      destruct (fire_result fuel n x) as (a' & -> & Hd & Ht & Hn & Hc)
  end.
  exists a'. split; [done|]. do 3 (split; [done|]).
  intros Hpos. apply Hc. by left.
Qed.

(** X17: time never loses or repeats a completion: when the clock moves
    on, each pending timer either stays pending or has dispatched
    exactly one event, so the number of events dispatched plus the number
    of timers pending is the same before and after. *)
Theorem advance_conserves_completions (fuel ms : nat) (a : FrmwrkAlert) :
  (2 ≤ fuel)%nat →
  ∃ a', advance fuel ms a = Some a' ∧
        now a' = (now a + ms)%nat ∧
        (length (dispatched a') + length (timers a'))%nat
        = (length (dispatched a) + length (timers a))%nat ∧
        Forall (λ d : nat, (now a' < d)%nat) (timers a').
Proof.
  intros Hfuel. destruct fuel as [|[|fuel]]; [lia..|].
  destruct (advance_result fuel ms a) as (a' & Ha & Hn & Ht & Hd & _).
  exists a'. split; [done|]. split; [done|]. split.
  - rewrite Hd, Ht, length_app, length_replicate.
    pose proof (due_and_later (now a + ms) (timers a)). lia.
  - rewrite Ht, Hn. apply Forall_forall. intros d.
    rewrite list_elem_of_filter. lia.
Qed.

Lemma advance_conserves_completions_witness :
  ∃ a', advance 2 150 (dismiss (dismiss constructor)) = Some a' ∧
        now a' = (now (dismiss (dismiss constructor)) + 150)%nat ∧
        (length (dispatched a') + length (timers a'))%nat
        = (length (dispatched (dismiss (dismiss constructor)))
           + length (timers (dismiss (dismiss constructor))))%nat ∧
        Forall (λ d : nat, (now a' < d)%nat) (timers a').
Proof.
  refine (advance_conserves_completions 2 150 _ _). lia.
Defined.

Lemma window_kept_by_dismiss (a : FrmwrkAlert) :
  pending_in_window a → pending_in_window (_dismiss a).
Proof.
  unfold pending_in_window, _dismiss, setTimeout, dismiss_delay.
  cbn [timers now with_timers with_shadowRoot]. intros Hw.
  apply Forall_app. split; [exact Hw|]. constructor; [lia|constructor].
Qed.

Lemma window_kept_by_advance (ms : nat) (a : FrmwrkAlert) :
  pending_in_window a →
  pending_in_window
    (with_timers (filter (λ d : nat, ¬ (d ≤ now a + ms)%nat) (timers a))
       (with_now (now a + ms) a)).
Proof.
  unfold pending_in_window. cbn [timers now with_timers with_now].
  rewrite !Forall_forall. intros Hw d. rewrite list_elem_of_filter.
  intros [Hlate Hd]. specialize (Hw d Hd). lia.
Qed.

(** X18: on a constructed alert, after any sequence of actions, every
    pending completion is due in the future and at most the delay away;
    so once the delay has passed without further action nothing is
    pending any more. *)
Theorem pending_completions_are_within_the_delay
    (fuel : nat) (acts : list action) :
  (4 ≤ fuel)%nat →
  ∃ a, run fuel acts constructor = Some a ∧
       pending_in_window a ∧
       ∃ a', advance fuel dismiss_delay a = Some a' ∧ timers a' = [].
Proof.
  intros Hfuel.
  destruct (run_from_constructor pending_in_window fuel acts Hfuel)
    as (a & Ha & Hw).
  { intros a Hrun.
    eapply (run_keeps pending_in_window); [..|exact Hrun];
      try (intros; assumption).
    - intros d a0 Ha0. unfold pending_in_window.
      destruct (updateDismissible_frame (with_dismissible d a0))
        as (_ & _ & _ & _ & Hn & Ht & _).
      rewrite Hn, Ht. exact Ha0.
    - apply window_kept_by_dismiss.
    - intros a0 Ha0. unfold connectedCallback.
      by destruct (close_button (_shadowRoot a0)).
    - apply window_kept_by_advance.
    - constructor. }
  exists a. split; [done|]. split; [done|].
  destruct fuel as [|[|fuel]]; [lia..|].
  destruct (advance_result fuel dismiss_delay a) as (a' & Hadv & _ & Ht & _).
  exists a'. split; [done|]. rewrite Ht.
  apply (due_all (now a + dismiss_delay) (timers a)).
  eapply Forall_impl; [exact Hw|]. cbn. lia.
Qed.

Lemma pending_completions_are_within_the_delay_witness :
  ∃ a, run 4 [Dismiss; Advance 100; Dismiss; Advance 250; Dismiss]
         constructor = Some a ∧
       pending_in_window a ∧
       ∃ a', advance 4 dismiss_delay a = Some a' ∧ timers a' = [].
Proof.
  refine (pending_completions_are_within_the_delay 4 _ _). lia.
Defined.

(** *** Listeners *)

Lemma iter_dismiss_result (n : nat) (a : FrmwrkAlert) :
  timers (Nat.iter n _dismiss a)
  = (timers a ++ replicate n (now a + dismiss_delay)%nat)%list ∧
  now (Nat.iter n _dismiss a) = now a ∧
  dispatched (Nat.iter n _dismiss a) = dispatched a ∧
  _variant (Nat.iter n _dismiss a) = _variant a.
Proof.
  induction n as [|n (IHt & IHn & IHd & IHv)].
  - cbn [Nat.iter nat_rect replicate]. by rewrite app_nil_r.
  - rewrite !Nat.iter_succ. set (x := Nat.iter n _dismiss a) in *.
    change (timers (_dismiss x))
      with (timers x ++ [(now x + dismiss_delay)%nat])%list.
    change (now (_dismiss x)) with (now x).
    change (dispatched (_dismiss x)) with (dispatched x).
    change (_variant (_dismiss x)) with (_variant x).
    rewrite IHt, IHn, IHd, IHv. repeat split; try done.
    by rewrite replicate_S_end, app_assoc.
Qed.

Lemma reattach_listeners (k : nat) (a : FrmwrkAlert) (b : Button) :
  close_button (_shadowRoot a) = Some b →
  let a' := Nat.iter k (λ x, disconnectedCallback (connectedCallback x)) a in
  close_button (_shadowRoot a')
  = Some {| click_listeners := click_listeners b + k;
            keydown_listeners := keydown_listeners b + k |} ∧
  timers a' = timers a ∧ now a' = now a ∧ dispatched a' = dispatched a ∧
  _variant a' = _variant a.
Proof.
  intros Hb. cbv zeta. induction k as [|k (IHb & IHt & IHn & IHd & IHv)].
  - cbn [Nat.iter nat_rect]. rewrite Hb, !Nat.add_0_r. by destruct b.
  - rewrite !Nat.iter_succ. set (x := Nat.iter k _ a) in *.
    unfold disconnectedCallback, connectedCallback.
    rewrite IHb. cbn. rewrite !Nat.add_succ_r. by repeat split.
Qed.

(** X19: a click on the close button dispatches one event for each
    [click] listener the button has, and every attachment of the alert
    adds a listener that no detachment removes: after [k] rounds of
    attaching and detaching an alert whose button had [n] listeners, one
    click is followed, once the delay has passed, by [n + k]
    [alert-dismissed] events. *)
Theorem click_dispatches_once_per_listener
    (fuel k : nat) (a : FrmwrkAlert) (b : Button) :
  (2 ≤ fuel)%nat →
  close_button (_shadowRoot a) = Some b →
  timers a = [] →
  let a1 := Nat.iter k (λ x, disconnectedCallback (connectedCallback x)) a in
  close_button (_shadowRoot a1)
  = Some {| click_listeners := click_listeners b + k;
            keydown_listeners := keydown_listeners b + k |} ∧
  ∃ a', advance fuel dismiss_delay (click_close a1) = Some a' ∧
        timers a' = [] ∧
        dispatched a'
        = (dispatched a ++
             replicate (click_listeners b + k)
               (alert_dismissed (_variant a)))%list.
Proof.
  intros Hfuel Hb Hidle. cbv zeta.
  destruct (reattach_listeners k a b Hb) as (Hb1 & Ht1 & Hn1 & Hd1 & Hv1).
  set (a1 := Nat.iter k _ a) in *.
  split; [exact Hb1|].
  destruct fuel as [|[|fuel]]; [lia..|].
  destruct (advance_result fuel dismiss_delay (click_close a1))
    as (a' & Hadv & _ & Ht & Hd & _).
  exists a'. split; [done|].
  unfold click_close in Ht, Hd. rewrite Hb1 in Ht, Hd.
  cbn [click_listeners] in Ht, Hd.
  destruct (iter_dismiss_result (click_listeners b + k) a1)
    as (Hit & Hin & Hid & Hiv).
  rewrite Hit, Hin, Ht1, Hidle, Hn1 in Ht, Hd. cbn [app] in Ht, Hd.
  assert (Hall : Forall (λ d : nat, (d ≤ now a + dismiss_delay)%nat)
                   (replicate (click_listeners b + k)
                      (now a + dismiss_delay)%nat))
    by (by apply Forall_replicate).
  destruct (due_all _ _ Hall) as [Hdue Hlater].
  rewrite Hlater in Ht. rewrite Hdue, length_replicate in Hd.
  split; [done|]. by rewrite Hd, Hid, Hiv, Hd1, Hv1.
Qed.

Lemma click_dispatches_once_per_listener_witness :
  let a := _updateDismissible (with_dismissible true constructor) in
  let a1 := Nat.iter 2 (λ x, disconnectedCallback (connectedCallback x)) a in
  close_button (_shadowRoot a1)
  = Some {| click_listeners := 1 + 2; keydown_listeners := 0 + 2 |} ∧
  ∃ a', advance 2 dismiss_delay (click_close a1) = Some a' ∧
        timers a' = [] ∧
        dispatched a'
        = (dispatched a ++
             replicate (1 + 2) (alert_dismissed (_variant a)))%list.
Proof.
  refine (click_dispatches_once_per_listener 2 2
            (_updateDismissible (with_dismissible true constructor))
            {| click_listeners := 1; keydown_listeners := 0 |} _ _ _).
  - lia.
  - reflexivity.
  - reflexivity.
Defined.

(** *** The variant during the lifecycle *)







End alert_runs.

(** ** The copy of the theme toggle with an icon *)
Section theme_icon.

Import ThemeToggleIcon.

Lemma icon_toggle_page (t : FrmwrkThemeToggle) (p : ThemeToggle.Page) :
  (_toggleTheme t p).2 = ThemeToggle._toggleTheme p.
Proof. reflexivity. Qed.

Lemma icon_toggle_icon (t : FrmwrkThemeToggle) (p : ThemeToggle.Page) :
  icon_textContent (_toggleTheme t p).1
  = (if ThemeToggle.classList_contains "theme-dark" p then sun else moon) ∧
  button_click_listeners (_toggleTheme t p).1 = button_click_listeners t.
Proof.
  unfold _toggleTheme. cbn [fst].
  by destruct (ThemeToggle.classList_contains "theme-dark" p).
Qed.

Lemma icon_click_page (n : nat) (t : FrmwrkThemeToggle)
    (p : ThemeToggle.Page) :
  (Nat.iter n (λ tp, _toggleTheme tp.1 tp.2) (t, p)).2
  = Nat.iter n ThemeToggle._toggleTheme p.
Proof.
  induction n as [|n IH]; [done|].
  rewrite !Nat.iter_succ, icon_toggle_page. by rewrite IH.
Qed.

(** X23: the two copies of the toggle in the file do the same to the
    page: with the same number of listeners, an activation of the copy
    with the icon leaves the class list, the storage and the event log
    exactly as an activation of the copy without it. *)
Theorem icon_copy_acts_alike_on_the_page
    (t : FrmwrkThemeToggle) (t' : ThemeToggle.FrmwrkThemeToggle)
    (p : ThemeToggle.Page) :
  button_click_listeners t = ThemeToggle.button_click_listeners t' →
  (click t p).2 = ThemeToggle.click t' p ∧
  (connectedCallback t p).2 = (ThemeToggle.connectedCallback t' p).2 ∧
  button_click_listeners (connectedCallback t p).1
  = ThemeToggle.button_click_listeners (ThemeToggle.connectedCallback t' p).1.
Proof.
  intros Hn. unfold click, ThemeToggle.click. rewrite <- Hn.
  split; [apply icon_click_page|].
  unfold connectedCallback, ThemeToggle.connectedCallback,
    _loadSavedTheme, ThemeToggle._loadSavedTheme.
  cbn [fst snd]. rewrite <- Hn. by case_decide.
Qed.

Lemma icon_copy_acts_alike_on_the_page_witness :
  (click (connectedCallback constructor ThemeToggle.first_visit).1
     ThemeToggle.first_visit).2
  = ThemeToggle.click
      (ThemeToggle.connectedCallback ThemeToggle.constructor
         ThemeToggle.first_visit).1 ThemeToggle.first_visit.
Proof.
  refine (proj1 (icon_copy_acts_alike_on_the_page
                   (connectedCallback constructor ThemeToggle.first_visit).1
                   (ThemeToggle.connectedCallback ThemeToggle.constructor
                      ThemeToggle.first_visit).1
                   ThemeToggle.first_visit _)).
  reflexivity.
Defined.

(** X24: after an activation of an attached toggle its icon shows the
    state of the document: the moon exactly when the dark flag is set,
    the sun exactly when it is clear. *)
Theorem icon_shows_flag_after_click
    (t : FrmwrkThemeToggle) (p : ThemeToggle.Page) :
  (0 < button_click_listeners t)%nat →
  let '(t', p') := click t p in
  (icon_textContent t' = moon
   ↔ "theme-dark" ∈ ThemeToggle.html_classList p') ∧
  (icon_textContent t' = sun
   ↔ "theme-dark" ∉ ThemeToggle.html_classList p').
Proof.
  unfold click.
  destruct (button_click_listeners t) as [|n]; [intros Hpos; lia|].
  intros _. rewrite Nat.iter_succ.
  destruct (Nat.iter n _ (t, p)) as [t0 p0].
  cbn [fst snd].
  destruct (_toggleTheme t0 p0) as [t' p'] eqn:Htoggle.
  pose proof (icon_toggle_page t0 p0) as Hp.
  pose proof (icon_toggle_icon t0 p0) as [Hi _].
  rewrite Htoggle in Hp, Hi. cbn [fst snd] in Hp, Hi. subst p'.
  rewrite Hi, toggle_flag_flips. unfold ThemeToggle.classList_contains.
  case_bool_decide; split; split; try done; try tauto.
Qed.

Lemma icon_shows_flag_after_click_witness :
  let '(t', p') :=
    click (connectedCallback constructor ThemeToggle.first_visit).1
      ThemeToggle.first_visit in
  (icon_textContent t' = moon
   ↔ "theme-dark" ∈ ThemeToggle.html_classList p') ∧
  (icon_textContent t' = sun
   ↔ "theme-dark" ∉ ThemeToggle.html_classList p').
Proof.
  refine (icon_shows_flag_after_click
            (connectedCallback constructor ThemeToggle.first_visit).1
            ThemeToggle.first_visit _).
  vm_compute. lia.
Defined.

(** X25: at attachment the icon goes by the storage, not by the
    document: on a page that carries the dark class while the storage
    does not hold ["dark"], the attached toggle shows the sun on a dark
    page, until its first activation. *)
Theorem icon_at_attachment_goes_by_storage
    (t : FrmwrkThemeToggle) (p : ThemeToggle.Page) :
  (icon_textContent (connectedCallback t p).1 = moon
   ↔ ThemeToggle.getItem "theme" p = Some "dark") ∧
  ("theme-dark" ∈ ThemeToggle.html_classList p →
   ThemeToggle.getItem "theme" p ≠ Some "dark" →
   icon_textContent (connectedCallback t p).1 = sun ∧
   "theme-dark" ∈ ThemeToggle.html_classList (connectedCallback t p).2).
Proof.
  unfold connectedCallback, _loadSavedTheme.
  case_decide; cbn [fst snd icon_textContent _updateIcon].
  - split; [by split|]. done.
  - split; [split; [discriminate|done]|]. done.
Qed.

Lemma icon_at_attachment_goes_by_storage_witness :
  let p := ThemeToggle.classList_add "theme-dark" ThemeToggle.first_visit in
  icon_textContent (connectedCallback constructor p).1 = sun ∧
  "theme-dark" ∈ ThemeToggle.html_classList (connectedCallback constructor p).2.
Proof.
  refine (proj2 (icon_at_attachment_goes_by_storage constructor
                   (ThemeToggle.classList_add "theme-dark"
                      ThemeToggle.first_visit)) _ _).
  - apply elem_of_union_l. by apply elem_of_singleton.
  - discriminate.
Defined.

End theme_icon.
